(** * Shallow embedding of the TR-181 XML-to-Excel converter
    (xml-to-excel-converter-3.py): the schema resolution engine.

    Scope of the model:
    - Python strings are modelled as [string]; every character is read as
      the Unicode code point of its byte (the Latin-1 block U+0000..U+00FF).
      [str.lower], [str.strip()] and the regular expression class [\s] are
      written out exactly for that block.
    - An ElementTree element is [elem]: tag, attributes, text, tail and
      children in document order.
    - Python dicts are association lists kept in insertion order (the
      relaxed documentation match iterates the keys in that order); lookup
      takes the first entry of a key, the dicts are built with one entry per
      key.
    - Recursive functions of the source that have no recursion bound are
      given a fuel argument; [None] means that the recursion has not
      returned within that many nested calls. *)

From Stdlib Require Import String Ascii List Bool Arith Lia.
Import ListNotations.
Open Scope list_scope.
Open Scope string_scope.
Set Warnings "-register-all".

(* ------------------------------------------------------------------ *)
(** ** Python string primitives *)

Module Py.

(** [str.isspace] (and [\s] of [re] for [str] patterns) on U+0000..U+00FF. *)
Definition is_space (c : ascii) : bool :=
  let n := nat_of_ascii c in
  (((9 <=? n) && (n <=? 13)) || ((28 <=? n) && (n <=? 32))
   || (n =? 133) || (n =? 160))%nat.

(** [str.lower] on one code point of U+0000..U+00FF. *)
Definition lower_char (c : ascii) : ascii :=
  let n := nat_of_ascii c in
  if (((65 <=? n) && (n <=? 90))
      || ((192 <=? n) && (n <=? 222) && negb (n =? 215)))%nat
  then ascii_of_nat (n + 32)%nat else c.

Fixpoint lower (s : string) : string :=
  match s with
  | EmptyString => EmptyString
  | String c s' => String (lower_char c) (lower s')
  end.

Definition truthy (s : string) : bool := negb (String.eqb s "").

(** [s.startswith(p)] *)
Fixpoint startswith (s p : string) : bool :=
  match p, s with
  | EmptyString, _ => true
  | String c p', String d s' => Ascii.eqb c d && startswith s' p'
  | String _ _, EmptyString => false
  end.

(** [p in s] for strings. *)
Fixpoint contains (p s : string) : bool :=
  startswith s p ||
  match s with
  | EmptyString => false
  | String _ s' => contains p s'
  end.

Definition endswith (s p : string) : bool :=
  Nat.leb (String.length p) (String.length s)
  && String.eqb (substring (String.length s - String.length p)
                           (String.length p) s) p.

(** [s.replace(old, new)] for a non-empty [old]: left to right,
    non-overlapping. *)
Fixpoint replace_aux (fuel : nat) (old new s : string) : string :=
  match fuel with
  | O => s
  | S f =>
      match s with
      | EmptyString => EmptyString
      | String c s' =>
          if startswith s old
          then new ++ replace_aux f old new
                 (substring (String.length old)
                    (String.length s - String.length old) s)
          else String c (replace_aux f old new s')
      end
  end.

Definition replace (old new s : string) : string :=
  match old with
  | EmptyString => s
  | _ => replace_aux (String.length s) old new s
  end.

(** [s.lstrip(chars)] / [s.rstrip(chars)] / [s.strip(chars)] for a
    character predicate. *)
Fixpoint lstrip_by (p : ascii -> bool) (s : string) : string :=
  match s with
  | EmptyString => EmptyString
  | String c s' => if p c then lstrip_by p s' else s
  end.

Fixpoint rev_string (s : string) : string :=
  match s with
  | EmptyString => EmptyString
  | String c s' => rev_string s' ++ String c EmptyString
  end.

Fixpoint rstrip_by (p : ascii -> bool) (s : string) : string :=
  match s with
  | EmptyString => EmptyString
  | String c s' =>
      let r := rstrip_by p s' in
      if String.eqb r "" && p c then EmptyString else String c r
  end.

Definition strip_by (p : ascii -> bool) (s : string) : string :=
  rstrip_by p (lstrip_by p s).

Definition is_dot (c : ascii) : bool := Ascii.eqb c ".".

(** [s.strip()] *)
Definition strip (s : string) : string := strip_by is_space s.

(** [sep.join(xs)] *)
Fixpoint join (sep : string) (xs : list string) : string :=
  match xs with
  | [] => ""
  | [x] => x
  | x :: xs' => x ++ sep ++ join sep xs'
  end.

(** The prefix of [s] before the first occurrence of [c] (all of [s] when
    [c] does not occur). *)
Fixpoint before_first (c : ascii) (s : string) : string :=
  match s with
  | EmptyString => EmptyString
  | String d s' => if Ascii.eqb c d then EmptyString
                   else String d (before_first c s')
  end.

(** [s.split(c)[-1]]: the part after the last occurrence of [c]. *)
Definition after_last (c : ascii) (s : string) : string :=
  rev_string (before_first c (rev_string s)).

(** [s.split(c, 1)[1]] for a string known to contain [c]. *)
Fixpoint after_first (c : ascii) (s : string) : string :=
  match s with
  | EmptyString => EmptyString
  | String d s' => if Ascii.eqb c d then s' else after_first c s'
  end.

(** [re.sub(r'\s+', ' ', s)]; [in_ws] records that the previous character
    belonged to a run already replaced by one space. *)
Fixpoint collapse_ws_aux (in_ws : bool) (s : string) : string :=
  match s with
  | EmptyString => EmptyString
  | String c s' =>
      if is_space c
      then if in_ws then collapse_ws_aux true s'
           else String " " (collapse_ws_aux true s')
      else String c (collapse_ws_aux false s')
  end.

Definition collapse_ws (s : string) : string := collapse_ws_aux false s.

(** Python's [x in xs] for a list of strings. *)
Definition mem (x : string) (xs : list string) : bool :=
  existsb (String.eqb x) xs.

(** Dictionary lookup on an insertion-ordered association list. *)
Fixpoint lookup {V} (k : string) (d : list (string * V)) : option V :=
  match d with
  | [] => None
  | (k', v) :: d' => if String.eqb k k' then Some v else lookup k d'
  end.

End Py.

Import Py.

(* ------------------------------------------------------------------ *)
(** ** ElementTree elements *)

Module ET.

Inductive elem : Type :=
  Elem (tag : string) (attrs : list (string * string))
       (text : option string) (tail : option string) (kids : list elem).

Definition tag (e : elem) : string := let 'Elem t _ _ _ _ := e in t.
Definition attrs (e : elem) : list (string * string) :=
  let 'Elem _ a _ _ _ := e in a.
Definition text (e : elem) : option string := let 'Elem _ _ x _ _ := e in x.
Definition tail (e : elem) : option string := let 'Elem _ _ _ x _ := e in x.
Definition kids (e : elem) : list elem := let 'Elem _ _ _ _ k := e in k.

(** [e.get(k)] *)
Definition get (e : elem) (k : string) : option string := lookup k (attrs e).

(** [e.get(k, '')] *)
Definition get_d (e : elem) (k : string) : string :=
  match get e k with Some v => v | None => "" end.

(** [e.iter()]: the element and its descendants, document order. *)
Fixpoint iter (e : elem) : list elem :=
  e :: (fix go (l : list elem) : list elem :=
          match l with [] => [] | c :: l' => app (iter c) (go l') end) (kids e).

(** The descendants of [e], document order ([.//*]). *)
Definition descendants (e : elem) : list elem := tl (iter e).

(** [e.findall(t)] / [e.find(t)]: direct children with tag [t]. *)
Definition findall (e : elem) (t : string) : list elem :=
  filter (fun c => String.eqb (tag c) t) (kids e).
Definition find (e : elem) (t : string) : option elem := hd_error (findall e t).

(** [e.findall('.//' + t)] / [e.find('.//' + t)]. *)
Definition findall_desc (e : elem) (t : string) : list elem :=
  filter (fun c => String.eqb (tag c) t) (descendants e).
Definition find_desc (e : elem) (t : string) : option elem :=
  hd_error (findall_desc e t).

(** [''.join(e.itertext())] *)
Fixpoint itertext (e : elem) : string :=
  match e with
  | Elem _ _ x _ k =>
      match x with Some t => t | None => "" end ++
      (fix go (l : list elem) : string :=
         match l with
         | [] => ""
         | c :: l' => itertext c ++
                      match tail c with Some t => t | None => "" end ++ go l'
         end) k
  end.

(** [e.tag.lower().split('}')[-1]]: the lower-cased local name. *)
Definition ltag (e : elem) : string := after_last "}" (lower (tag e)).

(** [e.tag.split('}')[-1].lower()] *)
Definition ltag' (e : elem) : string := lower (after_last "}" (tag e)).

End ET.

Import ET.

(* ------------------------------------------------------------------ *)
(** ** Type signature rendering ([extract_type_info]) *)

Module TypeInfo.

(** The three-way bound format shared by every [<size>]/[<range>] loop:
    [f"{lo}:{hi}"], [f"{lo}:"] or [f"{hi}"]. *)
Definition fmt_bounds (lo hi : option string) : option string :=
  match lo, hi with
  | Some l, Some h => if truthy l && truthy h then Some (l ++ ":" ++ h)
                      else if truthy l then Some (l ++ ":")
                      else if truthy h then Some h else None
  | Some l, None => if truthy l then Some (l ++ ":") else None
  | None, Some h => if truthy h then Some h else None
  | None, None => None
  end.

Definition size_part (s : elem) : option string :=
  fmt_bounds (get s "minLength") (get s "maxLength").

Definition range_part (r : elem) : option string :=
  fmt_bounds (get r "minInclusive") (get r "maxInclusive").

(** [size_ranges] as built from the direct [<size>] children and the first
    direct [<range>] child of [e]. *)
Definition size_ranges (e : elem) : list string :=
  app (flat_map (fun s => match size_part s with Some p => [p] | None => [] end)
           (findall e "size"))
  (match find e "range" with
     | Some r => match range_part r with Some p => [p] | None => [] end
     | None => []
     end).

(** The kinds whose constraints are put in square brackets. *)
Definition square_kind (t : string) : bool :=
  mem t ["int"; "long"; "unsignedint"].

Definition size_range_str (t : string) (srs : list string) : string :=
  match srs with
  | [] => ""
  | _ => if square_kind t then "[" ++ join ", " srs ++ "]"
         else "(" ++ join ", " srs ++ ")"
  end.

Definition enum_values (e : elem) : list string :=
  flat_map (fun x => match get x "value" with Some v => [v] | None => [] end)
           (findall e "enumeration").

(** [extract_type_info(elem)] *)
Definition extract_type_info (e : elem) : string :=
  let tag_name_norm := lower (ltag e) in
  let srs := size_ranges e in
  let srstr := size_range_str tag_name_norm srs in
  let evs := enum_values e in
  let enum_str := join "," evs in
  let '(base, evs') :=
    match evs with
    | [] => (tag_name_norm, evs)
    | _ =>
        if String.eqb tag_name_norm "string"
           && forallb (fun c => String.eqb (ltag c) "enumeration") (kids e)
        then ("string", [])
        else ("enum", evs)
    end in
  let type_str := match srs with [] => base | _ => base ++ srstr end in
  match evs' with
  | [] => type_str
  | _ => type_str ++ "[" ++ enum_str ++ "]"
  end.

End TypeInfo.

Import TypeInfo.

(* ------------------------------------------------------------------ *)
(** ** dataType chain resolution ([resolve_datatype_reference]) *)

Module DataType.

(** [xml_root.findall(".//dataType")] *)
Definition datatypes (root : elem) : list elem := findall_desc root "dataType".

(** The first [dataType] whose [name] attribute is [n]. *)
Definition find_datatype (tbl : list elem) (n : string) : option elem :=
  List.find (fun dt => match get dt "name" with
                       | Some m => String.eqb m n | None => false end) tbl.

(** Step 1: the first direct non-description child with a non-empty
    rendering. *)
Fixpoint first_child_type (l : list elem) : option string :=
  match l with
  | [] => None
  | c :: l' =>
      if String.eqb (ltag c) "description" then first_child_type l'
      else let ti := extract_type_info c in
           if truthy ti then Some ti else first_child_type l'
  end.

Definition primitive_tags : list string :=
  ["string"; "int"; "unsignedInt"; "unsignedLong"; "hexBinary"; "dateTime";
   "boolean"; "list"].

(** Step 2: [elem.find(".//" + tag)] for each primitive tag in turn. *)
Fixpoint first_desc_type (e : elem) (ts : list string) : option string :=
  match ts with
  | [] => None
  | t :: ts' =>
      match find_desc e t with
      | Some x => let ti := extract_type_info x in
                  if truthy ti then Some ti else first_desc_type e ts'
      | None => first_desc_type e ts'
      end
  end.

(** Steps 1 to 4 of [walk_base_chain]: what the current node yields
    without following [base]. *)
Definition local_type (e : elem) : option string :=
  match first_child_type (kids e) with
  | Some t => Some t
  | None =>
  match first_desc_type e primitive_tags with
  | Some t => Some t
  | None =>
  match findall e "enumeration" with
  | _ :: _ => Some ("enum[" ++ join "," (enum_values e) ++ "]")
  | [] =>
      let srs := size_ranges e in
      let tag_name_norm := ltag e in
      let srstr := size_range_str tag_name_norm srs in
      if truthy srstr then Some (tag_name_norm ++ srstr) else None
  end end end.

(** [walk_base_chain(elem, xml_root, visited)], one unit of fuel per call;
    the outer [None] is "not returned within [fuel] nested calls". *)
Fixpoint walk_base_chain (fuel : nat) (tbl : list elem) (e : elem)
         (visited : list string) : option (option string) :=
  match fuel with
  | O => None
  | S f =>
      match local_type e with
      | Some t => Some (Some t)
      | None =>
          match get e "base" with
          | Some b =>
              if truthy b && negb (mem b visited) then
                match find_datatype tbl b with
                | Some p => walk_base_chain f tbl p (b :: visited)
                | None => Some None
                end
              else Some None
          | None => Some None
          end
      end
  end.

(** [resolve_datatype_reference(datatype_name, xml_root)] with the fuel of
    its chain walk made explicit. *)
Definition resolve_datatype_reference_fuel (fuel : nat) (n : string)
           (root : elem) : option (option string) :=
  let tbl := datatypes root in
  match find_datatype tbl n with
  | None => Some None
  | Some dt =>
      match walk_base_chain fuel tbl dt [n] with
      | None => None
      | Some (Some t) => if truthy t then Some (Some t)
                         else Some (first_child_type (kids dt))
      | Some None => Some (first_child_type (kids dt))
      end
  end.

(** The number of nested [walk_base_chain] calls never exceeds one plus the
    number of [dataType] definitions (theorem [resolve_terminates]), so
    this fuel makes the model total without cutting any run short. *)
Definition resolve_datatype_reference (n : string) (root : elem)
  : option string :=
  match resolve_datatype_reference_fuel (S (length (datatypes root))) n root with
  | Some r => r
  | None => None
  end.

End DataType.

Import DataType.

(* ------------------------------------------------------------------ *)
(** ** Text helpers: [normalize_path], [substitute_macros], [clean_text] *)

Module Text.

(** [path.lower().replace(" ", "").strip(".")] *)
Definition normalize_path (path : string) : string :=
  strip_by is_dot (replace " " "" (lower path)).

(** The body of [macro_replacer] applied to [match.group(1)]. *)
Definition macro_replacer (param_name object_path : string) (g : string)
  : string :=
  let macro := strip g in
  if String.eqb macro "numentries" then
    if truthy param_name && endswith param_name "NumberOfEntries" then
      let table := replace "NumberOfEntries" "" param_name in
      let full_table := if truthy object_path then object_path ++ table
                        else table in
      "The number of entries in the " ++ full_table ++ " table."
    else "The number of entries."
  else if String.eqb macro "empty" then "an empty string"
  else if String.eqb macro "pattern" then
    "a valid value matching the required pattern"
  else if mem macro ["reference"; "referenceName"; "noreference"] then ""
  else if startswith macro "param|" || startswith macro "object|"
          || startswith macro "bibref|" then after_first "|" macro
  else if startswith macro "reference|" then
    let content := after_first "|" macro in
    replace "{{object}}"
      (if truthy object_path then rstrip_by is_dot object_path
       else "this object") content
  else "".

(** The shortest [inner] such that [s = inner ++ "}}" ++ rest] with no
    newline in [inner]: the lazy [(.*?)\}\}] of the pattern. *)
Fixpoint find_close (s : string) : option (string * string) :=
  match s with
  | EmptyString => None
  | String c s' =>
      if startswith s "}}" then Some ("", substring 2 (String.length s - 2) s)
      else if Ascii.eqb c "010" then None
      else match find_close s' with
           | Some (i, r) => Some (String c i, r)
           | None => None
           end
  end.

(** [re.sub(r"\{\{(.*?)\}\}", f, s)], scanning left to right; [fuel] is
    the length of the text. *)
Fixpoint macro_sub (fuel : nat) (f : string -> string) (s : string)
  : string :=
  match fuel with
  | O => s
  | S n =>
      match s with
      | EmptyString => EmptyString
      | String c s' =>
          if startswith s "{{" then
            match find_close (substring 2 (String.length s - 2) s) with
            | Some (inner, rest) => f inner ++ macro_sub n f rest
            | None => String c (macro_sub n f s')
            end
          else String c (macro_sub n f s')
      end
  end.

(** [substitute_macros(text, param_name, object_path)]; the replacement
    function cannot raise on these inputs, so the [except] branch is
    never taken. *)
Definition substitute_macros (text param_name object_path : string)
  : string :=
  if negb (truthy text) then ""
  else strip (macro_sub (String.length text)
                (macro_replacer param_name object_path) text).

(** [clean_text(text)] for a present text. *)
Definition clean_text (text : string) : string := strip (collapse_ws text).

End Text.

Import Text.

(* ------------------------------------------------------------------ *)
(** ** Templates and references *)

Module Tmpl.

(** A value of the [templates] dict (built by
    [extract_template_data_from_xml]). *)
Record template := {
  t_name : string; t_ref : string; t_template : string;
  t_description : string; t_data_type : string; t_default_value : string }.

(** The dict returned by [extract_template_data]. *)
Record tdata := { d_description : string; d_data_type : string;
                  d_default_value : string }.

(** [if not data[k] and parent_data.get(k): data[k] = parent_data[k]] *)
Definition fill (cur parent : string) : string :=
  if negb (truthy cur) && truthy parent then parent else cur.

Definition merge (d p : tdata) : tdata :=
  {| d_description := fill (d_description d) (d_description p);
     d_data_type := fill (d_data_type d) (d_data_type p);
     d_default_value := fill (d_default_value d) (d_default_value p) |}.

(** [extract_template_data(template_name, templates_dict)]: the source has
    no visited set and no depth bound; one unit of fuel per call, the
    outer [None] is "not returned within [fuel] nested calls". *)
Fixpoint extract_template_data (fuel : nat) (name : string)
         (tbl : list (string * template)) : option (option tdata) :=
  match fuel with
  | O => None
  | S f =>
      match lookup name tbl with
      | None => Some None
      | Some t =>
          let data := {| d_description := t_description t;
                         d_data_type := t_data_type t;
                         d_default_value := t_default_value t |} in
          if truthy (t_template t) then
            match extract_template_data f (t_template t) tbl with
            | None => None
            | Some (Some p) => Some (Some (merge data p))
            | Some None => Some (Some data)
            end
          else Some (Some data)
      end
  end.

(** [resolve_reference(ref_name, references_dict)]: the description and
    data type of the returned dict ([default_value] is absent, read as
    [''] by the caller). *)
Definition resolve_reference (ref_name : string)
           (refs : list (string * string)) : option (string * string) :=
  match lookup ref_name refs with
  | Some target => Some ("Reference to: " ++ target, "")
  | None => None
  end.

End Tmpl.

Import Tmpl.

(* ------------------------------------------------------------------ *)
(** ** [extract_parameter_data] *)

Module Param.

Record prec := {
  p_object_name : string; p_parameter_name : string; p_full_path : string;
  p_access : string; p_version : string; p_description : string;
  p_data_type : string; p_object_default : string }.

Definition set_description (r : prec) (v : string) : prec :=
  {| p_object_name := p_object_name r; p_parameter_name := p_parameter_name r;
     p_full_path := p_full_path r; p_access := p_access r;
     p_version := p_version r; p_description := v;
     p_data_type := p_data_type r; p_object_default := p_object_default r |}.
Definition set_data_type (r : prec) (v : string) : prec :=
  {| p_object_name := p_object_name r; p_parameter_name := p_parameter_name r;
     p_full_path := p_full_path r; p_access := p_access r;
     p_version := p_version r; p_description := p_description r;
     p_data_type := v; p_object_default := p_object_default r |}.
Definition set_object_default (r : prec) (v : string) : prec :=
  {| p_object_name := p_object_name r; p_parameter_name := p_parameter_name r;
     p_full_path := p_full_path r; p_access := p_access r;
     p_version := p_version r; p_description := p_description r;
     p_data_type := p_data_type r; p_object_default := v |}.

(** The sentinel of the description fallback. *)
Definition no_description : string := "No HTML or XML description available".

(** The relaxed loop over [html_descriptions.keys()]: the first key equal
    to [relaxed] once its [{i}] markers are removed. *)
Fixpoint relaxed_match (relaxed : string) (html : list (string * string))
  : option string :=
  match html with
  | [] => None
  | (k, v) :: html' =>
      if String.eqb relaxed (replace "{i}" "" k) then Some v
      else relaxed_match relaxed html'
  end.

(** The embedded-description loop: every child whose lower-cased tag
    contains [description] overwrites the previous value. *)
Fixpoint xml_description (name object_path : string) (l : list elem)
  : option string :=
  match l with
  | [] => None
  | c :: l' =>
      let later := xml_description name object_path l' in
      if contains "description" (lower (tag c)) then
        match later with
        | Some d => Some d
        | None => Some (clean_text
                          (substitute_macros (itertext c) name object_path))
        end
      else later
  end.

(** Lines 259-283: the description chosen before the overlays. *)
Definition html_or_xml_description (full_path name object_path : string)
           (html : list (string * string)) (kids : list elem) : string :=
  let normalized := normalize_path full_path in
  match lookup normalized html with
  | Some d => d
  | None =>
      let relaxed := replace "{i}" "" normalized in
      match relaxed_match relaxed html with
      | Some d => d
      | None =>
          match xml_description name object_path kids with
          | Some d => d
          | None => no_description
          end
      end
  end.

(** Truthiness and value of an optional attribute. *)
Definition otruthy (o : option string) : bool :=
  match o with Some s => truthy s | None => false end.
Definition oval (o : option string) : string :=
  match o with Some s => s | None => "" end.

(** [if value_elem.text: default = value_elem.text.strip()] *)
Definition text_default (c : elem) (dflt : string) : string :=
  match text c with
  | Some x => if truthy x then strip x else dflt
  | None => dflt
  end.

(** Lines 297-311: the [<default>] children before the first [dataType]
    child, and the [ref] of that [dataType] child. *)
Fixpoint scan_syntax (l : list elem) (dflt : string)
  : string * option string :=
  match l with
  | [] => (dflt, None)
  | c :: l' =>
      let t := ltag' c in
      if String.eqb t "default" then
        scan_syntax l' (match get c "value" with
                        | Some v => v
                        | None => text_default c dflt
                        end)
      else if String.eqb t "datatype" then (dflt, get c "ref")
      else scan_syntax l' dflt
  end.

(** The [<value>] loop over the children of a type element. *)
Fixpoint value_default (l : list elem) (dflt : string) : string :=
  match l with
  | [] => dflt
  | c :: l' =>
      value_default l'
        (if contains "value" (lower (tag c)) then text_default c dflt
         else dflt)
  end.

(** The aggregated [hexbinary(...)] rendering of lines 340-351 and
    370-381. *)
Definition hexbinary_type (x : elem) : string :=
  let parts := flat_map (fun s => match size_part s with
                                  | Some p => [p] | None => [] end)
                        (findall_desc x "size") in
  match parts with
  | [] => "hexbinary"
  | _ => "hexbinary(" ++ join ", " parts ++ ")"
  end.

(** The local variables of the inline-syntax loop (lines 289-294). *)
Record syn := {
  is_list : bool; data_type : string; formatted_type : string;
  size_elem : option elem; range_elem : option elem; dflt : string }.

Definition int_kinds : list string :=
  ["string"; "int"; "unsignedint"; "long"; "unsignedlong"].

Fixpoint first_hexbinary (l : list elem) : option elem :=
  match l with
  | [] => None
  | c :: l' => if String.eqb (ltag' c) "hexbinary" then Some c
               else first_hexbinary l'
  end.

(** One iteration of the loop of lines 320-398. *)
Definition syntax_step (st : syn) (c : elem) : syn :=
  let t := ltag' c in
  if String.eqb t "default" then st
  else if String.eqb t "list" then
    let st1 := {| is_list := true; data_type := data_type st;
                  formatted_type := formatted_type st;
                  size_elem := find_desc c "size";
                  range_elem := find_desc c "range"; dflt := dflt st |} in
    match first_hexbinary (kids c) with
    | Some x => {| is_list := true; data_type := "hexbinary";
                   formatted_type := hexbinary_type x;
                   size_elem := size_elem st1; range_elem := range_elem st1;
                   dflt := dflt st1 |}
    | None => st1
    end
  else if mem t int_kinds then
    {| is_list := is_list st; data_type := t;
       formatted_type := formatted_type st;
       size_elem := if is_list st then size_elem st else find_desc c "size";
       range_elem := if is_list st then range_elem st else find_desc c "range";
       dflt := value_default (kids c) (dflt st) |}
  else if String.eqb t "hexbinary" then
    {| is_list := is_list st; data_type := t;
       formatted_type := hexbinary_type c;
       size_elem := size_elem st; range_elem := range_elem st;
       dflt := value_default (kids c) (dflt st) |}
  else if negb (mem t ["list"; "string"; "int"; "unsignedint"; "long";
                       "unsignedlong"; "datatype"; "hexbinary"]) then
    {| is_list := is_list st; data_type := t; formatted_type := t;
       size_elem := size_elem st; range_elem := range_elem st;
       dflt := value_default (kids c) (dflt st) |}
  else st.

(** [f"{dt}{o}{lo}:{hi}{c}"], [f"{dt}{o}{lo}:{c}"], [f"{dt}{o}:{hi}{c}"] or
    [dt], for the opening and closing brackets [o] and [c]. *)
Definition range_type (o c dt : string) (r : elem) : string :=
  let lo := get r "minInclusive" in
  let hi := get r "maxInclusive" in
  if otruthy lo && otruthy hi then dt ++ o ++ oval lo ++ ":" ++ oval hi ++ c
  else if otruthy lo then dt ++ o ++ oval lo ++ ":" ++ c
  else if otruthy hi then dt ++ o ++ ":" ++ oval hi ++ c
  else dt.

(** Lines 400-411 and 444-455. *)
Definition string_type (dt : string) (se : option elem) : string :=
  match se with
  | Some s =>
      let lo := get s "minLength" in
      let hi := get s "maxLength" in
      if otruthy lo && otruthy hi then dt ++ "(" ++ oval lo ++ ":" ++ oval hi ++ ")"
      else if otruthy hi then dt ++ "(" ++ oval hi ++ ")"
      else dt
  | None => dt
  end.

(** Lines 399-442: the list branch. *)
Definition render_list (st : syn) : string :=
  let dt := data_type st in
  if String.eqb dt "string" then string_type dt (size_elem st)
  else if mem dt ["int"; "unsignedint"; "long"; "unsignedlong"] then
    match range_elem st with
    | Some r => if String.eqb dt "unsignedint" then range_type "[" "]" dt r
                else range_type "(" ")" dt r
    | None => dt
    end
  else if String.eqb dt "hexbinary" then
    if truthy (formatted_type st) then formatted_type st else dt
  else dt.

(** Lines 443-480: the non-list branch. *)
Definition render_plain (st : syn) : string :=
  let dt := data_type st in
  if String.eqb dt "string" then string_type dt (size_elem st)
  else if mem dt ["int"; "unsignedint"; "long"; "unsignedlong"] then
    match range_elem st with
    | Some r => if mem dt ["int"; "long"; "unsignedint"]
                then range_type "[" "]" dt r
                else dt
    | None => dt
    end
  else if String.eqb dt "hexbinary" then
    if truthy (formatted_type st) then formatted_type st else dt
  else if truthy (formatted_type st) then formatted_type st else dt.

Definition syn_init (d : string) : syn :=
  {| is_list := false; data_type := ""; formatted_type := "";
     size_elem := None; range_elem := None; dflt := d |}.

(** The data type rendered from an inline syntax block (no [dataType]
    reference), and the default it leaves. *)
Definition inline_syntax (kids : list elem) (d : string) : string * string :=
  let st := fold_left syntax_step kids (syn_init d) in
  let formatted := if is_list st then render_list st else render_plain st in
  (if truthy formatted then formatted else data_type st, dflt st).

(** One [syntax] child (lines 287-481) applied to the record. *)
Definition process_syntax (root : elem) (r : prec) (s : elem) : prec :=
  let '(d1, ref_found) := scan_syntax (kids s) (p_object_default r) in
  if otruthy ref_found then
    let n := oval ref_found in
    let dt := match resolve_datatype_reference n root with
              | Some t => if truthy t then t else "ref(" ++ n ++ ")"
              | None => "ref(" ++ n ++ ")"
              end in
    set_data_type (set_object_default r d1) dt
  else
    let '(dt, d2) := inline_syntax (kids s) d1 in
    set_data_type (set_object_default r d2) dt.

(** Lines 286-287: every child whose lower-cased tag contains [syntax]. *)
Definition process_syntaxes (root : elem) (kids : list elem) (r : prec)
  : prec :=
  fold_left (fun r s => if contains "syntax" (lower (tag s))
                        then process_syntax root r s else r) kids r.

(** Lines 484-494. *)
Definition apply_template (td : option tdata) (r : prec) : prec :=
  match td with
  | Some t =>
      let r1 := if negb (truthy (p_description r)) && truthy (d_description t)
                then set_description r (d_description t) else r in
      let r2 := if negb (truthy (p_data_type r1)) && truthy (d_data_type t)
                then set_data_type r1 (d_data_type t) else r1 in
      if negb (truthy (p_object_default r2)) && truthy (d_default_value t)
      then set_object_default r2 (d_default_value t) else r2
  | None => r
  end.

(** Lines 497-507. *)
Definition apply_reference (rd : option (string * string)) (r : prec) : prec :=
  match rd with
  | Some (desc, dt) =>
      let r1 := if negb (truthy (p_description r))
                then set_description r desc else r in
      let r2 := if negb (truthy (p_data_type r1))
                then set_data_type r1 dt else r1 in
      if negb (truthy (p_object_default r2))
      then set_object_default r2 "" else r2
  | None => r
  end.

(** [f"{parent.rstrip('.')}.{name}".replace(" ", "").strip(".").rstrip('.')] *)
Definition full_path_of (parent name : string) : string :=
  rstrip_by is_dot
    (strip_by is_dot (replace " " "" (rstrip_by is_dot parent ++ "." ++ name))).

(** The record after the description and syntax stages, before the
    template and reference overlays. *)
Definition base_record (p : elem) (parent : string)
           (html : list (string * string)) (root : elem) : prec :=
  let name := get_d p "name" in
  let fp := full_path_of parent name in
  let r0 := {| p_object_name := parent; p_parameter_name := name;
               p_full_path := fp; p_access := get_d p "access";
               p_version := get_d p "version"; p_description := "";
               p_data_type := ""; p_object_default := "" |} in
  let r1 := set_description r0
              (html_or_xml_description fp name parent html (kids p)) in
  process_syntaxes root (kids p) r1.

(** [extract_parameter_data(param_elem, parent_object_name, references_dict,
    templates_dict, html_descriptions, xml_root)]; the template recursion
    gets [fuel] nested calls. *)
Definition extract_parameter_data (fuel : nat) (p : elem) (parent : string)
           (refs : list (string * string)) (tmpls : list (string * template))
           (html : list (string * string)) (root : elem) : option prec :=
  let r := base_record p parent html root in
  let template_ref := get_d p "template" in
  let ref := get_d p "ref" in
  let otd := if truthy template_ref
             then extract_template_data fuel template_ref tmpls
             else Some None in
  match otd with
  | None => None
  | Some td =>
      let r' := apply_template td r in
      Some (if truthy ref then apply_reference (resolve_reference ref refs) r'
            else r')
  end.

End Param.

Import Param.

(* ------------------------------------------------------------------ *)
(** ** [process_xml_file] on a parsed tree *)

Module Process.

Record orec := {
  o_object_name : string; o_access : string; o_min_entries : string;
  o_max_entries : string; o_version : string; o_description : string }.

Inductive row := ObjectRow (o : orec) | ParameterRow (p : prec).

Definition dm_description : string :=
  "{urn:broadband-forum-org:cwmp:datamodel-1-14}description".

(** [extract_object_data(obj_elem, html_descriptions)] *)
Definition extract_object_data (o : elem) (html : list (string * string))
  : orec :=
  let name := get_d o "name" in
  let full_path := if endswith name "." then name else name ++ "." in
  let normalized := normalize_path full_path in
  let description :=
    match lookup normalized html with
    | Some d => d
    | None =>
        match find o dm_description with
        | Some d => match text d with
                    | Some x => if truthy x then clean_text x else ""
                    | None => ""
                    end
        | None => ""
        end
    end in
  {| o_object_name := name; o_access := get_d o "access";
     o_min_entries := get_d o "minEntries"; o_max_entries := get_d o "maxEntries";
     o_version := get_d o "version"; o_description := description |}.

(** The [description] loop of [extract_template_data_from_xml]. *)
Fixpoint template_description (l : list elem) : string :=
  match l with
  | [] => ""
  | c :: l' =>
      if contains "description" (lower (tag c))
      then match text c with
           | Some x => if truthy x then clean_text x else ""
           | None => ""
           end
      else template_description l'
  end.

(** The body of the loop over the first child of a [syntax] element. *)
Definition template_type (ty : elem) (dv : string) : string * string :=
  let v := get_d ty "value" in
  let dv1 := if truthy v then v else dv in
  (after_last "}" (tag ty),
   fold_left (fun d c => if contains "value" (lower (tag c))
                         then match text c with
                              | Some x => if truthy x then x else d
                              | None => d
                              end
                         else d) (kids ty) dv1).

(** [extract_template_data_from_xml(template_elem)] *)
Definition extract_template_data_from_xml (t : elem) : template :=
  let '(dt, dv) :=
    fold_left (fun acc s =>
                 if contains "syntax" (lower (tag s)) then
                   match kids s with
                   | ty :: _ => template_type ty (snd acc)
                   | [] => acc
                   end
                 else acc) (kids t) ("", "") in
  {| t_name := get_d t "name"; t_ref := get_d t "ref";
     t_template := get_d t "template";
     t_description := template_description (kids t);
     t_data_type := dt; t_default_value := dv |}.

(** [d[k] = v] on an insertion-ordered dict. *)
Fixpoint dict_set {V} (k : string) (v : V) (d : list (string * V))
  : list (string * V) :=
  match d with
  | [] => [(k, v)]
  | (k', v') :: d' => if String.eqb k k' then (k', v) :: d'
                      else (k', v') :: dict_set k v d'
  end.

(** One iteration of the second template pass (lines 707-718); the dict
    values are shared, so later iterations see the earlier updates. *)
Definition inherit_step (tbl : list (string * template)) (k : string)
  : list (string * template) :=
  match lookup k tbl with
  | Some t =>
      if truthy (t_template t) then
        match lookup (t_template t) tbl with
        | Some p =>
            dict_set k
              {| t_name := t_name t; t_ref := t_ref t;
                 t_template := t_template t;
                 t_description := fill (t_description t) (t_description p);
                 t_data_type := fill (t_data_type t) (t_data_type p);
                 t_default_value :=
                   fill (t_default_value t) (t_default_value p) |} tbl
        | None => tbl
        end
      else tbl
  | None => tbl
  end.

(** The first template pass (lines 695-704). *)
Definition collect_templates (root : elem) : list (string * template) :=
  let found := filter (fun e => contains "template" (lower (tag e))) (kids root) in
  fold_left (fun d e => let td := extract_template_data_from_xml e in
                        if truthy (t_name td)
                        then dict_set (t_name td) td d else d)
            found [].

(** Both passes: the second iterates the keys of the first. *)
Definition build_templates (root : elem) : list (string * template) :=
  let tbl := collect_templates root in
  fold_left inherit_step (map fst tbl) tbl.

Definition build_references (model : elem) : list (string * string) :=
  fold_left (fun d e =>
               if contains "reference" (lower (tag e)) then
                 let n := get_d e "name" in
                 let t := get_d e "targetParamRef" in
                 if truthy n && truthy t then dict_set n t d else d
               else d) (iter model) [].

Definition degenerate (s : string) : bool :=
  negb (truthy s) || String.eqb (strip s) ".".

(** The parameter rows of one object (lines 750-762), and whether the loop
    ran to its end. [extract_parameter_data] gives [None] when a template
    recursion raises [RecursionError]; the loop then stops with the rows
    it has kept so far and [false]. *)
Fixpoint param_rows (fuel : nat) (ps : list elem) (oname : string)
         (refs : list (string * string)) (tmpls : list (string * template))
         (html : list (string * string)) (root : elem) : list row * bool :=
  match ps with
  | [] => ([], true)
  | p :: ps' =>
      match extract_parameter_data fuel p oname refs tmpls html root with
      | None => ([], false)
      | Some r =>
          let '(rs, ok) := param_rows fuel ps' oname refs tmpls html root in
          ((if degenerate (p_parameter_name r) || degenerate (p_full_path r)
            then rs else ParameterRow r :: rs), ok)
      end
  end.

(** The loop over the objects (lines 742-762). An exception inside the
    loop is caught by [except Exception] (lines 768-771), and [all_data]
    is returned as it stands: the rows appended before the failing
    parameter, and no row of the later objects. *)
Fixpoint object_rows (fuel : nat) (objs : list elem)
         (refs : list (string * string)) (tmpls : list (string * template))
         (html : list (string * string)) (root : elem) : list row :=
  match objs with
  | [] => []
  | o :: l' =>
      let od := extract_object_data o html in
      if degenerate (o_object_name od) then object_rows fuel l' refs tmpls html root
      else
        let ps := filter (fun e => contains "parameter" (lower (tag e))) (kids o) in
        let '(prs, ok) := param_rows fuel ps (o_object_name od) refs tmpls html root in
        ObjectRow od ::
          app prs (if ok then object_rows fuel l' refs tmpls html root else [])
  end.

(** [process_xml_file] after [ET.parse]: [all_data] as returned, where a
    template recursion that has not returned within [fuel] nested calls
    stands for the [RecursionError] of the Python interpreter. *)
Definition process_root (fuel : nat) (root : elem)
           (html : list (string * string)) : list row :=
  match List.find (fun e => contains "model" (lower (tag e))) (kids root) with
  | None => []
  | Some model =>
      object_rows fuel
        (filter (fun e => contains "object" (lower (tag e))) (iter model))
        (build_references model) (build_templates root) html root
  end.
End Process.

Import Process.

(* ------------------------------------------------------------------ *)
(** ** The documentation index built by [main] *)

Module Html.

(** One [<tr>] as the row loop of [main] (lines 872-902) reads it: its
    [class] list, its number of [<td>] cells, [cells[0].get_text(strip=True)]
    and the result of [extract_description(cells, desc_index)]. The HTML
    parsing and text extraction of BeautifulSoup are the inputs, not
    modelled. *)
Record hrow := {
  h_classes : list string; h_ncells : nat; h_name : string;
  h_description : string }.

(** One iteration of the row loop; the state is [(html_descriptions,
    last_object_path)]. *)
Definition row_step (acc : list (string * string) * string) (tr : hrow)
  : list (string * string) * string :=
  let '(html, last) := acc in
  let classes := h_classes tr in
  if match classes with [] => true | _ => false end
     || (negb (mem "object" classes) && negb (mem "parameter" classes))
  then acc
  else if Nat.eqb (h_ncells tr) 0 then acc
  else
    let name := h_name tr in
    if negb (truthy name) then acc
    else if startswith (lower name) "object definition"
            || startswith (lower name) "parameter definition" then acc
    else
      let description := h_description tr in
      if mem "object" classes then
        let name' := if endswith name "." then name else name ++ "." in
        ((if truthy description
          then dict_set (normalize_path name') description html else html),
         name')
      else if negb (truthy last) then acc
      else
        let full_path := last ++ name in
        ((if truthy description
          then dict_set (normalize_path full_path) description html else html),
         last).

Definition html_descriptions (rows : list hrow) : list (string * string) :=
  fst (fold_left row_step rows ([], "")).

End Html.

Import Html.

(* ------------------------------------------------------------------ *)
(** ** Statements' vocabulary *)

Module Vocab.

(** A dataType base chain of [N] definitions starting at [n] that ends at
    a definition without a (known) base: an acyclic chain of depth [N]. *)
Inductive chain (tbl : list elem) : string -> nat -> Prop :=
| chain_last : forall n d,
    find_datatype tbl n = Some d ->
    (forall b, get d "base" = Some b -> truthy b = true ->
               find_datatype tbl b = None) ->
    chain tbl n 1
| chain_next : forall n d b N,
    find_datatype tbl n = Some d -> get d "base" = Some b ->
    truthy b = true -> chain tbl b N -> chain tbl n (S N).

(** A template parent chain of [N] templates starting at [n] that ends at a
    template without parent or at a name absent from the table. *)
Inductive tchain (tbl : list (string * template)) : string -> nat -> Prop :=
| tchain_missing : forall n, lookup n tbl = None -> tchain tbl n 1
| tchain_root : forall n t,
    lookup n tbl = Some t -> truthy (t_template t) = false -> tchain tbl n 1
| tchain_next : forall n t N,
    lookup n tbl = Some t -> truthy (t_template t) = true ->
    tchain tbl (t_template t) N -> tchain tbl n (S N).

(** A set of template names closed under the parent link: every name of
    [S] has a template whose parent is again in [S] (a parent cycle). *)
Definition parent_closed (tbl : list (string * template)) (S : list string)
  : Prop :=
  forall m, In m S ->
    exists t, lookup m tbl = Some t /\ truthy (t_template t) = true /\
              In (t_template t) S.

(** The three overlaid fields of a parameter record. *)
Inductive field := FDescription | FDataType | FObjectDefault.

Definition getf (f : field) (r : prec) : string :=
  match f with
  | FDescription => p_description r
  | FDataType => p_data_type r
  | FObjectDefault => p_object_default r
  end.

Fixpoint last_opt {A} (l : list A) : option A :=
  match l with
  | [] => None
  | [x] => Some x
  | _ :: l' => last_opt l'
  end.

(** The description reconciler as the priority list reads it: exact key,
    then the first key equal up to [{i}] markers in insertion order, then
    the last embedded description child (macro-substituted and
    whitespace-collapsed, even when that leaves it empty), and the
    sentinel only when the parameter has no description child at all. *)
Definition reconcile_spec (full_path name object_path : string)
           (html : list (string * string)) (kids : list elem) : string :=
  let key := normalize_path full_path in
  match lookup key html with
  | Some d => d
  | None =>
      match List.find (fun kv => String.eqb (replace "{i}" "" key)
                                            (replace "{i}" "" (fst kv))) html with
      | Some (_, d) => d
      | None =>
          match last_opt (filter (fun c => contains "description" (lower (tag c)))
                                 kids) with
          | Some c => clean_text (substitute_macros (itertext c) name object_path)
          | None => no_description
          end
      end
  end.

End Vocab.

Import Vocab.

(* ------------------------------------------------------------------ *)
(** ** Sample schema fragments *)

Module Samples.

Definition range_1_10 : elem :=
  Elem "range" [("minInclusive", "1"); ("maxInclusive", "10")] None None [].

Definition el (t : string) (k : list elem) : elem := Elem t [] None None k.

(** [<parameter name="Value">] with the given children. *)
Definition param (extra : list (string * string)) (k : list elem) : elem :=
  Elem "parameter" (("name", "Value") :: extra) None None k.

(** [<object name="Device.Test."><parameter name="Value">
      <description>Test value {{empty}}</description>
      <syntax><int><range minInclusive="1" maxInclusive="10"/></int></syntax>
    </parameter></object>] inside a model and a document. *)
Definition test_param : elem :=
  param [] [Elem "description" [] (Some "Test value {{empty}}") None [];
            el "syntax" [el "int" [range_1_10]]].
Definition test_root : elem :=
  el "document" [el "model" [Elem "object" [("name", "Device.Test.")] None None
                                  [test_param]]].

(** A list of [int] whose [<list>] element carries the range. *)
Definition list_int_param : elem :=
  param [] [el "syntax" [el "list" [range_1_10]; el "int" []]].
(** The same range on a plain [int]. *)
Definition plain_int_param : elem :=
  param [] [el "syntax" [el "int" [range_1_10]]].

(** A parameter with an empty [<description/>] and a [string] syntax. *)
Definition empty_desc_param : elem :=
  param [] [el "description" []; el "syntax" [el "string" []]].

(** Two dataTypes basing on each other, without a primitive. *)
Definition cyclic_types_root : elem :=
  el "document" [Elem "dataType" [("name", "A"); ("base", "B")] None None [];
                 Elem "dataType" [("name", "B"); ("base", "A")] None None []].

(** [P] enters the cycle [A], [B], [C]; [S] bases on itself. *)
Definition cycle_types_root : elem :=
  el "document"
    [Elem "dataType" [("name", "P"); ("base", "A")] None None [];
     Elem "dataType" [("name", "A"); ("base", "B")] None None [];
     Elem "dataType" [("name", "B"); ("base", "C")] None None [];
     Elem "dataType" [("name", "C"); ("base", "A")] None None [];
     Elem "dataType" [("name", "S"); ("base", "S")] None None []].

(** A three-level dataType chain ending at an [unsignedInt]. *)
Definition chain_types_root : elem :=
  el "document"
    [Elem "dataType" [("name", "C"); ("base", "B")] None None [];
     Elem "dataType" [("name", "B"); ("base", "A")] None None [];
     Elem "dataType" [("name", "A")] None None
       [el "unsignedInt" [Elem "range" [("maxInclusive", "4")] None None []]]].

Definition mk_template (n parent desc : string) : template :=
  {| t_name := n; t_ref := ""; t_template := parent; t_description := desc;
     t_data_type := ""; t_default_value := "" |}.

(** Templates [A] and [B], each the parent of the other. *)
Definition cyclic_templates : list (string * template) :=
  [("A", mk_template "A" "B" ""); ("B", mk_template "B" "A" "")].

(** [C] inherits from [D], which has a description. *)
Definition chained_templates : list (string * template) :=
  [("C", mk_template "C" "D" ""); ("D", mk_template "D" "" "From template")].

(** [C] inherits from [D], and both have a description. *)
Definition overriding_templates : list (string * template) :=
  [("C", mk_template "C" "D" "Own text"); ("D", mk_template "D" "" "From template")].

(** A parameter with an embedded description and [template="D"]. *)
Definition templated_param : elem :=
  param [("template", "D")]
    [Elem "description" [] (Some "Embedded text") None [];
     el "syntax" [el "string" []]].

(** A parameter whose syntax names the unknown dataType [Missing]. *)
Definition missing_ref_param : elem :=
  param [] [el "syntax" [Elem "dataType" [("ref", "Missing")] None None []]].

(** [<string>] with only enumerations, and with a [<size>] among them. *)
Definition enum_only_string : elem :=
  el "string" [Elem "enumeration" [("value", "A")] None None [];
               Elem "enumeration" [("value", "B")] None None []].
Definition enum_size_string : elem :=
  el "string" [Elem "enumeration" [("value", "A")] None None [];
               Elem "size" [("maxLength", "64")] None None [];
               Elem "enumeration" [("value", "B")] None None []].

(** A named [string] type and a type derived from it by a facet, as the
    data model writes them. *)
Definition ip_address_type : elem :=
  Elem "dataType" [("name", "IPAddress")] None None
    [el "description" []; el "string" [Elem "size" [("maxLength", "45")] None None []]].
Definition ipv4_address_type : elem :=
  Elem "dataType" [("name", "IPv4Address"); ("base", "IPAddress")] None None
    [el "description" []; Elem "size" [("maxLength", "15")] None None []].
Definition derived_types_root : elem :=
  el "document" [ip_address_type; ipv4_address_type].

(** Two top-level templates, [T] with parent [P]. *)
Definition template_root : elem :=
  el "document"
    [Elem "template" [("name", "T"); ("template", "P")] None None
       [Elem "description" [] (Some "Own") None []];
     Elem "template" [("name", "P")] None None
       [Elem "description" [] (Some "Parent") None [];
        el "syntax" [el "boolean" []]];
     el "model" []].

End Samples.

Import Samples.

(* ================================================================== *)
(** * Properties *)

(* ------------------------------------------------------------------ *)
(** ** Path normalization *)

Module NormalizeFacts.

#[local] Arguments Ascii.eqb : simpl never.
#[local] Arguments lower_char : simpl never.

(** Removing every occurrence of one character: the spec's reading of
    "strips" a character class, used to state what [normalize_path]
    does. *)
Fixpoint delete_char (x : ascii) (s : string) : string :=
  match s with
  | EmptyString => EmptyString
  | String c s' => if Ascii.eqb c x then delete_char x s'
                   else String c (delete_char x s')
  end.

Fixpoint all_chars (P : ascii -> bool) (s : string) : bool :=
  match s with
  | EmptyString => true
  | String c s' => P c && all_chars P s'
  end.

Lemma substring_whole : forall s, substring 0 (String.length s) s = s.
Proof. induction s as [|c s IH]; simpl; [reflexivity | now rewrite IH]. Qed.

Lemma startswith_nil : forall s, startswith s "" = true.
Proof. now intros [|c s]. Qed.

Lemma replace_aux_space : forall n s,
  String.length s <= n -> replace_aux n " " "" s = delete_char " " s.
Proof.
  induction n as [|n IH]; intros [|c s] Hl; try reflexivity;
    [simpl in Hl; lia|].
  cbn -[Ascii.eqb substring]. rewrite startswith_nil, andb_true_r.
  destruct (Ascii.eqb " " c) eqn:E.
  - apply Ascii.eqb_eq in E; subst c. cbn.
    rewrite Nat.sub_0_r, substring_whole. apply IH. simpl in Hl; lia.
  - rewrite Ascii.eqb_sym, E. f_equal. apply IH. simpl in Hl; lia.
Qed.

Lemma replace_space : forall s, replace " " "" s = delete_char " " s.
Proof. intros s. unfold replace. apply replace_aux_space. lia. Qed.

Ltac ascii_cases c :=
  destruct c as [[|] [|] [|] [|] [|] [|] [|] [|]]; reflexivity.

Lemma lower_char_idem : forall c, lower_char (lower_char c) = lower_char c.
Proof. intros c; ascii_cases c. Qed.

Lemma lower_char_dot : forall c, is_dot (lower_char c) = is_dot c.
Proof. intros c; ascii_cases c. Qed.

Lemma lower_char_space : forall c,
  Ascii.eqb (lower_char c) " " = Ascii.eqb c " ".
Proof. intros c; ascii_cases c. Qed.

Definition lower_fixed (c : ascii) : bool := Ascii.eqb (lower_char c) c.
Definition not_space (c : ascii) : bool := negb (Ascii.eqb c " ").

Lemma lower_all_fixed : forall s, all_chars lower_fixed (lower s) = true.
Proof.
  induction s as [|c s IH]; simpl; [reflexivity|].
  unfold lower_fixed. rewrite lower_char_idem, Ascii.eqb_refl. exact IH.
Qed.

Lemma lower_of_fixed : forall s, all_chars lower_fixed s = true -> lower s = s.
Proof.
  induction s as [|c s IH]; simpl; intros H; [reflexivity|].
  apply andb_prop in H as [Hc Hs]. unfold lower_fixed in Hc.
  apply Ascii.eqb_eq in Hc. now rewrite Hc, IH.
Qed.

Lemma delete_keeps : forall P x s,
  all_chars P s = true -> all_chars P (delete_char x s) = true.
Proof.
  intros P x. induction s as [|c s IH]; simpl; intros H; [reflexivity|].
  apply andb_prop in H as [Hc Hs].
  destruct (Ascii.eqb c x); simpl; [auto | now rewrite Hc, IH].
Qed.

Lemma delete_no_space : forall s, all_chars not_space (delete_char " " s) = true.
Proof.
  induction s as [|c s IH]; simpl; [reflexivity|].
  destruct (Ascii.eqb c " ") eqn:E; simpl; [exact IH|].
  rewrite IH, andb_true_r. unfold not_space. now rewrite E.
Qed.

Lemma delete_of_no_space : forall s,
  all_chars not_space s = true -> delete_char " " s = s.
Proof.
  induction s as [|c s IH]; simpl; intros H; [reflexivity|].
  apply andb_prop in H as [Hc Hs]. unfold not_space in Hc.
  destruct (Ascii.eqb c " "); simpl in Hc; [discriminate|]. now rewrite IH.
Qed.

Lemma lstrip_keeps : forall P q s,
  all_chars P s = true -> all_chars P (lstrip_by q s) = true.
Proof.
  intros P q. induction s as [|c s IH]; simpl; intros H; [reflexivity|].
  apply andb_prop in H as [Hc Hs].
  destruct (q c); [auto | simpl; now rewrite Hc, Hs].
Qed.

Lemma rstrip_keeps : forall P q s,
  all_chars P s = true -> all_chars P (rstrip_by q s) = true.
Proof.
  intros P q. induction s as [|c s IH]; simpl; intros H; [reflexivity|].
  apply andb_prop in H as [Hc Hs].
  destruct (String.eqb (rstrip_by q s) "" && q c); [reflexivity|].
  simpl. now rewrite Hc, IH.
Qed.

Lemma lstrip_idem : forall q s, lstrip_by q (lstrip_by q s) = lstrip_by q s.
Proof.
  intros q. induction s as [|c s IH]; simpl; [reflexivity|].
  destruct (q c) eqn:E; [exact IH | simpl; now rewrite E].
Qed.

Lemma rstrip_idem : forall q s, rstrip_by q (rstrip_by q s) = rstrip_by q s.
Proof.
  intros q. induction s as [|c s IH]; simpl; [reflexivity|].
  destruct (String.eqb (rstrip_by q s) "" && q c) eqn:E; [reflexivity|].
  simpl. rewrite IH. now rewrite E.
Qed.

Lemma lstrip_rstrip : forall q t,
  lstrip_by q t = t -> lstrip_by q (rstrip_by q t) = rstrip_by q t.
Proof.
  intros q [|c t]; simpl; intros H; [reflexivity|].
  destruct (q c) eqn:E.
  - (* then [t] would be shorter than itself *)
    exfalso. assert (Hl := f_equal String.length H). simpl in Hl.
    clear -Hl. revert Hl. generalize dependent t.
    assert (Hle : forall s, String.length (lstrip_by q s) <= String.length s).
    { induction s as [|d s IH]; simpl; [lia|]. destruct (q d); simpl; lia. }
    intros t Hl. specialize (Hle t). lia.
  - rewrite andb_false_r. simpl. now rewrite E.
Qed.

Lemma strip_idem : forall q s, strip_by q (strip_by q s) = strip_by q s.
Proof.
  intros q s. unfold strip_by.
  rewrite lstrip_rstrip by apply lstrip_idem. apply rstrip_idem.
Qed.

Lemma lstrip_of_strip : forall q s,
  lstrip_by q (strip_by q s) = strip_by q s.
Proof.
  intros q s. unfold strip_by. apply lstrip_rstrip, lstrip_idem.
Qed.

Lemma rstrip_of_strip : forall q s,
  rstrip_by q (strip_by q s) = strip_by q s.
Proof. intros q s. unfold strip_by. apply rstrip_idem. Qed.

Lemma normalize_path_eq : forall p,
  normalize_path p = strip_by is_dot (delete_char " " (lower p)).
Proof. intros p. unfold normalize_path. now rewrite replace_space. Qed.

Lemma normalize_chars : forall p,
  all_chars lower_fixed (normalize_path p) = true /\
  all_chars not_space (normalize_path p) = true.
Proof.
  intros p. rewrite normalize_path_eq. unfold strip_by. split.
  - apply rstrip_keeps, lstrip_keeps, delete_keeps, lower_all_fixed.
  - apply rstrip_keeps, lstrip_keeps, delete_no_space.
Qed.

End NormalizeFacts.

(* ------------------------------------------------------------------ *)
(** ** The dataType chain walk *)

Module ChainFacts.

(** Definitions of the table whose name is not yet visited. *)
Definition unvisited (visited : list string) (d : elem) : bool :=
  match get d "name" with Some m => negb (mem m visited) | None => false end.

Definition pending (tbl : list elem) (visited : list string) : nat :=
  length (filter (unvisited visited) tbl).

Lemma filter_length_lt {A} (f g : A -> bool) (l : list A) (x : A) :
  (forall y, g y = true -> f y = true) -> In x l -> f x = true ->
  g x = false -> length (filter g l) < length (filter f l).
Proof.
  intros Hgf. induction l as [|y l IH]; simpl; intros Hin Hf Hg; [contradiction|].
  assert (Hle : forall l', length (filter g l') <= length (filter f l')).
  { induction l' as [|z l' IH']; simpl; [lia|].
    destruct (g z) eqn:Ez; [rewrite (Hgf z Ez); simpl; lia|].
    destruct (f z); simpl; lia. }
  destruct Hin as [<-|Hin].
  - rewrite Hf, Hg. simpl. specialize (Hle l). lia.
  - destruct (g y) eqn:Ey; [rewrite (Hgf y Ey); simpl; specialize (IH Hin Hf Hg); lia|].
    destruct (f y); simpl; [specialize (IH Hin Hf Hg); lia | auto].
Qed.

Lemma find_datatype_some : forall tbl b p,
  find_datatype tbl b = Some p -> In p tbl /\ get p "name" = Some b.
Proof.
  intros tbl b p H. unfold find_datatype in H.
  destruct (List.find_some _ _ H) as [Hin Hn]. split; [exact Hin|].
  destruct (get p "name") as [m|]; [|discriminate].
  apply String.eqb_eq in Hn. now subst.
Qed.

Lemma pending_step : forall tbl visited b p,
  find_datatype tbl b = Some p -> mem b visited = false ->
  pending tbl (b :: visited) < pending tbl visited.
Proof.
  intros tbl visited b p Hf Hm. destruct (find_datatype_some _ _ _ Hf) as [Hin Hn].
  unfold pending. apply (filter_length_lt _ _ _ p).
  - intros y. unfold unvisited. destruct (get y "name") as [m|]; [|discriminate].
    simpl. now destruct (String.eqb m b), (mem m visited).
  - exact Hin.
  - unfold unvisited. now rewrite Hn, Hm.
  - unfold unvisited. rewrite Hn. simpl. now rewrite String.eqb_refl.
Qed.

(** Every nested call adds a definition name to [visited]: the walk
    returns within one more call than there are unvisited definitions. *)
Lemma walk_total : forall fuel tbl e visited,
  pending tbl visited < fuel -> walk_base_chain fuel tbl e visited <> None.
Proof.
  induction fuel as [|f IH]; intros tbl e visited Hlt; [lia|].
  simpl. destruct (local_type e); [discriminate|].
  destruct (get e "base") as [b|]; [|discriminate].
  destruct (truthy b && negb (mem b visited)) eqn:Eb; [|discriminate].
  apply andb_prop in Eb as [_ Hm]. apply negb_true_iff in Hm.
  destruct (find_datatype tbl b) as [p|] eqn:Ef; [|discriminate].
  apply IH. pose proof (pending_step _ _ _ _ Ef Hm). lia.
Qed.

Lemma resolve_total : forall root n,
  resolve_datatype_reference_fuel (S (length (datatypes root))) n root <> None.
Proof.
  intros root n. unfold resolve_datatype_reference_fuel.
  destruct (find_datatype (datatypes root) n) as [dt|]; [|discriminate].
  assert (Hw : walk_base_chain (S (length (datatypes root))) (datatypes root) dt [n]
               <> None).
  { apply walk_total. unfold pending. pose proof (filter_length_le
      (unvisited [n]) (datatypes root)). lia. }
  destruct (walk_base_chain _ _ dt [n]) as [[t|]|]; [|discriminate|contradiction].
  destruct (truthy t); discriminate.
Qed.

Lemma walk_chain : forall tbl n N, chain tbl n N ->
  forall d visited, find_datatype tbl n = Some d ->
  walk_base_chain N tbl d visited <> None.
Proof.
  intros tbl n N Hc. induction Hc as [n d0 Hf Hend|n d0 b N Hf Hb Htb Hc IH];
    intros d visited Hd; rewrite Hf in Hd; injection Hd as <-; simpl.
  - destruct (local_type d0); [discriminate|].
    destruct (get d0 "base") as [b|] eqn:Eb; [|discriminate].
    destruct (truthy b && negb (mem b visited)) eqn:Et; [|discriminate].
    apply andb_prop in Et as [Htb _]. now rewrite (Hend b eq_refl Htb).
  - destruct (local_type d0); [discriminate|]. rewrite Hb.
    destruct (truthy b && negb (mem b visited)); [|discriminate].
    destruct (find_datatype tbl b) as [p|] eqn:Ep; [|discriminate].
    destruct N as [|N']; [inversion Hc|]. now apply IH.
Qed.

Lemma resolve_chain : forall root n N, chain (datatypes root) n N ->
  resolve_datatype_reference_fuel N n root <> None.
Proof.
  intros root n N Hc. unfold resolve_datatype_reference_fuel.
  destruct (find_datatype (datatypes root) n) as [dt|] eqn:Ef; [|discriminate].
  pose proof (walk_chain _ _ _ Hc dt [n] Ef) as Hw.
  destruct (walk_base_chain N _ dt [n]) as [[t|]|]; [|discriminate|contradiction].
  destruct (truthy t); discriminate.
Qed.

(** [resolve_datatype_reference] is the fuelled walk once the fuel bound
    holds. *)
Lemma resolve_unfold : forall root n r,
  resolve_datatype_reference_fuel (S (length (datatypes root))) n root = Some r ->
  resolve_datatype_reference n root = r.
Proof. intros root n r H. unfold resolve_datatype_reference. now rewrite H. Qed.

Lemma first_child_of_local : forall e,
  local_type e = None -> first_child_type (kids e) = None.
Proof. intros e. unfold local_type. now destruct (first_child_type (kids e)). Qed.

Lemma resolve_missing : forall root n,
  find_datatype (datatypes root) n = None -> resolve_datatype_reference n root = None.
Proof.
  intros root n H. unfold resolve_datatype_reference, resolve_datatype_reference_fuel.
  now rewrite H.
Qed.

(** A walk that starts inside a set of definitions closed under the base
    link, none of them with a type of its own, never yields a type. *)
Lemma walk_closed : forall tbl (ds : list elem),
  (forall d, In d ds -> local_type d = None) ->
  (forall d b p, In d ds -> get d "base" = Some b ->
     find_datatype tbl b = Some p -> In p ds) ->
  forall fuel d visited, In d ds ->
  walk_base_chain fuel tbl d visited = None \/
  walk_base_chain fuel tbl d visited = Some None.
Proof.
  intros tbl ds HL HC. induction fuel as [|f IH]; intros d visited Hd;
    [now left|].
  cbn [walk_base_chain]. rewrite (HL d Hd).
  destruct (get d "base") as [b|] eqn:Eb; [|now right].
  destruct (truthy b && negb (mem b visited)); [|now right].
  destruct (find_datatype tbl b) as [p|] eqn:Ep; [|now right].
  apply IH. exact (HC d b p Hd Eb Ep).
Qed.

Lemma resolve_closed_none : forall root n (ds : list elem),
  (forall d, In d ds -> local_type d = None) ->
  (forall d b p, In d ds -> get d "base" = Some b ->
     find_datatype (datatypes root) b = Some p -> In p ds) ->
  (forall d, find_datatype (datatypes root) n = Some d -> In d ds) ->
  resolve_datatype_reference n root = None.
Proof.
  intros root n ds HL HC Hn.
  unfold resolve_datatype_reference, resolve_datatype_reference_fuel.
  destruct (find_datatype (datatypes root) n) as [dt|] eqn:Ef; [|reflexivity].
  specialize (Hn dt eq_refl).
  destruct (walk_closed _ ds HL HC (S (length (datatypes root))) dt [n] Hn)
    as [E|E]; rewrite E; [reflexivity|].
  now rewrite (first_child_of_local _ (HL dt Hn)).
Qed.

End ChainFacts.

(* ------------------------------------------------------------------ *)
(** ** Template recursion *)

Module TemplateFacts.

Lemma template_chain_returns : forall tbl n N, tchain tbl n N ->
  forall fuel, N <= fuel -> extract_template_data fuel n tbl <> None.
Proof.
  intros tbl n N Hc. induction Hc as [n Hn|n t Ht Hp|n t N Ht Hp Hc IH];
    intros [|f] Hle; try lia; simpl.
  - now rewrite Hn.
  - now rewrite Ht, Hp.
  - rewrite Ht, Hp. specialize (IH f ltac:(lia)).
    destruct (extract_template_data f (t_template t) tbl) as [[p|]|];
      [discriminate|discriminate|contradiction].
Qed.

Lemma template_cycle_diverges : forall tbl S, parent_closed tbl S ->
  forall fuel n, In n S -> extract_template_data fuel n tbl = None.
Proof.
  intros tbl S Hcl. induction fuel as [|f IH]; intros n Hn; [reflexivity|].
  destruct (Hcl n Hn) as (t & Ht & Hp & Hin). simpl. rewrite Ht, Hp.
  now rewrite (IH _ Hin).
Qed.

End TemplateFacts.

(* ------------------------------------------------------------------ *)
(** ** The parameter record *)

Module ParamFacts.

(** Split every [if] of an overlay; the branches that would overwrite the
    non-empty field contradict [H]. *)
Ltac overlay_cases H :=
  repeat match goal with
         | |- context [if ?b then _ else _] => destruct b eqn:?
         end;
  simpl in *;
  repeat match goal with
         | E : _ && _ = true |- _ => apply andb_prop in E as [? ?]
         end;
  rewrite ?H in *; simpl in *; try discriminate; try reflexivity;
  congruence.

Lemma apply_template_keeps : forall td r f,
  truthy (getf f r) = true -> getf f (apply_template td r) = getf f r.
Proof.
  intros [t|] r f H; [|reflexivity]. unfold apply_template.
  destruct f; simpl in *; overlay_cases H.
Qed.

Lemma apply_reference_keeps : forall rd r f,
  truthy (getf f r) = true -> getf f (apply_reference rd r) = getf f r.
Proof.
  intros [[desc dt]|] r f H; [|reflexivity]. unfold apply_reference.
  destruct f; simpl in *; overlay_cases H.
Qed.

(** The final record is the base record with the two overlays. *)
Lemma extract_shape : forall fuel p parent refs tmpls html root r,
  extract_parameter_data fuel p parent refs tmpls html root = Some r ->
  exists td, (truthy (get_d p "template") = false -> td = None) /\
             (truthy (get_d p "template") = true ->
              extract_template_data fuel (get_d p "template") tmpls = Some td) /\
             exists rd, r = apply_reference rd
                              (apply_template td (base_record p parent html root)).
Proof.
  intros fuel p parent refs tmpls html root r H. unfold extract_parameter_data in H.
  destruct (truthy (get_d p "template")) eqn:Et.
  - destruct (extract_template_data fuel (get_d p "template") tmpls) as [td|] eqn:E;
      [|discriminate].
    exists td. split; [discriminate|]. split; [reflexivity|].
    injection H as <-. destruct (truthy (get_d p "ref")).
    + eexists; reflexivity.
    + now exists None.
  - exists None. split; [reflexivity|]. split; [discriminate|].
    injection H as <-. destruct (truthy (get_d p "ref")).
    + eexists; reflexivity.
    + now exists None.
Qed.

Lemma final_keeps : forall fuel p parent refs tmpls html root r f,
  extract_parameter_data fuel p parent refs tmpls html root = Some r ->
  truthy (getf f (base_record p parent html root)) = true ->
  getf f r = getf f (base_record p parent html root).
Proof.
  intros fuel p parent refs tmpls html root r f H Ht.
  destruct (extract_shape _ _ _ _ _ _ _ _ H) as (td & _ & _ & rd & ->).
  rewrite apply_reference_keeps; rewrite apply_template_keeps; auto.
Qed.

Lemma process_syntax_description : forall root r s,
  p_description (process_syntax root r s) = p_description r.
Proof.
  intros root r s. unfold process_syntax.
  destruct (scan_syntax (kids s) (p_object_default r)) as [d1 rf].
  destruct (otruthy rf); [reflexivity|].
  now destruct (inline_syntax (kids s) d1).
Qed.

Lemma process_syntaxes_description : forall root l r,
  p_description (process_syntaxes root l r) = p_description r.
Proof.
  intros root l. unfold process_syntaxes. induction l as [|s l IH]; intros r;
    [reflexivity|]. simpl. rewrite IH.
  destruct (contains "syntax" (lower (tag s))); [|reflexivity].
  apply process_syntax_description.
Qed.

Lemma base_description : forall p parent html root,
  p_description (base_record p parent html root) =
  html_or_xml_description (full_path_of parent (get_d p "name")) (get_d p "name")
    parent html (kids p).
Proof.
  intros. unfold base_record. now rewrite process_syntaxes_description.
Qed.

Lemma fold_filter {A B} (P : B -> bool) (f : A -> B -> A) (l : list B) (a : A) :
  fold_left (fun a b => if P b then f a b else a) l a =
  fold_left f (filter P l) a.
Proof.
  revert a. induction l as [|b l IH]; intros a; [reflexivity|]. simpl.
  destruct (P b); simpl; apply IH.
Qed.

Lemma scan_syntax_ref : forall l d d',
  snd (scan_syntax l d) = snd (scan_syntax l d').
Proof.
  induction l as [|c l IH]; intros d d'; [reflexivity|]. simpl.
  destruct (String.eqb (ltag' c) "default"); [apply IH|].
  destruct (String.eqb (ltag' c) "datatype"); [reflexivity | apply IH].
Qed.

(** The relaxed loop is [List.find] over the dict entries. *)
Lemma relaxed_match_find : forall relaxed html,
  relaxed_match relaxed html =
  option_map snd (List.find (fun kv => String.eqb relaxed
                                         (replace "{i}" "" (fst kv))) html).
Proof.
  intros relaxed. induction html as [|[k v] html IH]; [reflexivity|].
  cbn -[replace].
  destruct (String.eqb relaxed (replace "{i}" "" k)); [reflexivity | exact IH].
Qed.

Lemma last_opt_cons {A} (x : A) l :
  last_opt (x :: l) = match last_opt l with Some y => Some y | None => Some x end.
Proof.
  destruct l as [|y l]; [reflexivity|].
  assert (Hs : forall (z : A) m, exists w, last_opt (z :: m) = Some w).
  { intros z m. revert z. induction m as [|u m IH]; intros z; [now exists z|].
    destruct (IH u) as [w Hw]. exists w. exact Hw. }
  destruct (Hs y l) as [w Hw]. change (last_opt (y :: l) = match last_opt (y :: l)
    with Some y => Some y | None => Some x end). now rewrite Hw.
Qed.

(** The embedded loop keeps the last description child. *)
Lemma xml_description_last : forall name op l,
  xml_description name op l =
  option_map (fun c => clean_text (substitute_macros (itertext c) name op))
    (last_opt (filter (fun c => contains "description" (lower (tag c))) l)).
Proof.
  intros name op. induction l as [|c l IH]; [reflexivity|]. simpl.
  destruct (contains "description" (lower (tag c))).
  - rewrite last_opt_cons, IH.
    now destruct (last_opt (filter _ l)).
  - exact IH.
Qed.

End ParamFacts.

(* ------------------------------------------------------------------ *)
(** ** Text, paths and the documentation index *)

Module TextFacts.

Import NormalizeFacts.

(** Every whitespace character is a space, and no two are adjacent;
    [prev] records that the previous character was a space. *)
Fixpoint ws_ok (prev : bool) (s : string) : bool :=
  match s with
  | EmptyString => true
  | String c s' =>
      if is_space c then Ascii.eqb c " " && negb prev && ws_ok true s'
      else ws_ok false s'
  end.

Lemma collapse_ws_ok : forall s b, ws_ok b (collapse_ws_aux b s) = true.
Proof.
  induction s as [|c s IH]; intros b; [reflexivity|]. simpl.
  destruct (is_space c) eqn:E; [|simpl; rewrite E; apply IH].
  destruct b; [apply IH|]. simpl. apply IH.
Qed.

Lemma ws_ok_collapse : forall s b, ws_ok b s = true -> collapse_ws_aux b s = s.
Proof.
  induction s as [|c s IH]; intros b H; [reflexivity|]. simpl in *.
  destruct (is_space c) eqn:E.
  - apply andb_prop in H as [H Hs]. apply andb_prop in H as [Hc Hb].
    apply Ascii.eqb_eq in Hc. destruct b; [discriminate|].
    subst c. now rewrite IH.
  - now rewrite IH.
Qed.

Lemma lstrip_ws_ok : forall s b,
  ws_ok b s = true -> ws_ok false (lstrip_by is_space s) = true.
Proof.
  induction s as [|c s IH]; intros b H; [reflexivity|]. simpl in *.
  destruct (is_space c) eqn:E.
  - apply andb_prop in H as [_ Hs]. exact (IH _ Hs).
  - simpl. now rewrite E.
Qed.

Lemma rstrip_ws_ok : forall s b,
  ws_ok b s = true -> ws_ok b (rstrip_by is_space s) = true.
Proof.
  induction s as [|c s IH]; intros b H; [reflexivity|]. simpl in *.
  destruct (String.eqb (rstrip_by is_space s) "" && is_space c); [reflexivity|].
  simpl. destruct (is_space c).
  - apply andb_prop in H as [Hcb Hs]. rewrite Hcb. simpl. exact (IH _ Hs).
  - exact (IH _ H).
Qed.

(** A text with no [{{] has nothing for the pattern to match. *)
Lemma macro_sub_plain : forall n f s,
  contains "{{" s = false -> macro_sub n f s = s.
Proof.
  induction n as [|n IH]; intros f [|c s] H; try reflexivity.
  change (contains "{{" (String c s))
    with (startswith (String c s) "{{" || contains "{{" s) in H.
  apply orb_false_iff in H as [H1 H2].
  cbn [macro_sub]. rewrite H1. now rewrite IH.
Qed.

Lemma lower_app : forall a b, lower (a ++ b) = lower a ++ lower b.
Proof. induction a as [|c a IH]; intros b; simpl; [reflexivity | now rewrite IH]. Qed.

Lemma delete_app : forall x a b,
  delete_char x (a ++ b) = delete_char x a ++ delete_char x b.
Proof.
  intros x. induction a as [|c a IH]; intros b; simpl; [reflexivity|].
  destruct (Ascii.eqb c x); simpl; now rewrite IH.
Qed.

Lemma lstrip_app : forall q a b,
  lstrip_by q (a ++ b) =
  if String.eqb (lstrip_by q a) "" then lstrip_by q b else lstrip_by q a ++ b.
Proof.
  intros q. induction a as [|c a IH]; intros b; [reflexivity|]. simpl.
  destruct (q c); [apply IH | reflexivity].
Qed.

Lemma rstrip_snoc : forall q a c,
  q c = true -> rstrip_by q (a ++ String c EmptyString) = rstrip_by q a.
Proof.
  intros q a c Hc. induction a as [|d a IH]; simpl.
  - now rewrite Hc.
  - now rewrite IH.
Qed.

(** A trailing ['.'] does not change the normalized path. *)
Lemma normalize_path_dot : forall n, normalize_path (n ++ ".") = normalize_path n.
Proof.
  intros n. rewrite !normalize_path_eq, lower_app, delete_app.
  change (delete_char " " (lower ".")) with ".".
  unfold strip_by. rewrite lstrip_app.
  destruct (String.eqb (lstrip_by is_dot (delete_char " " (lower n))) "") eqn:E.
  - apply String.eqb_eq in E. rewrite E. reflexivity.
  - apply rstrip_snoc. reflexivity.
Qed.

Lemma normalize_fixed : forall p, normalize_path (normalize_path p) = normalize_path p.
Proof.
  intros p. destruct (normalize_chars p) as [Hl Hs].
  rewrite (normalize_path_eq (normalize_path p)).
  rewrite (lower_of_fixed _ Hl), (delete_of_no_space _ Hs).
  rewrite normalize_path_eq. apply strip_idem.
Qed.

Lemma dict_set_in {V} : forall (d : list (string * V)) k v k' v',
  In (k', v') (dict_set k v d) -> (k' = k /\ v' = v) \/ In (k', v') d.
Proof.
  induction d as [|[k0 v0] d IH]; intros k v k' v' H; simpl in H.
  - destruct H as [H|[]]. injection H as <- <-. now left.
  - destruct (String.eqb k k0) eqn:E.
    + apply String.eqb_eq in E. subst k0. destruct H as [H|H].
      * injection H as <- <-. now left.
      * right. now right.
    + destruct H as [H|H]; [right; now left|].
      destruct (IH _ _ _ _ H) as [?|?]; [now left | right; now right].
Qed.

Definition index_ok (html : list (string * string)) : Prop :=
  forall k v, In (k, v) html -> normalize_path k = k /\ truthy v = true.

Lemma row_step_ok : forall acc tr,
  index_ok (fst acc) -> index_ok (fst (row_step acc tr)).
Proof.
  intros [html last] tr H. unfold row_step.
  repeat match goal with
         | |- context [if ?b then _ else _] => destruct b eqn:?
         end; simpl; try exact H;
  intros k v Hin; apply dict_set_in in Hin as [[-> ->]|Hin]; auto;
  split; auto using normalize_fixed.
Qed.

Lemma html_index_ok : forall rows acc,
  index_ok (fst acc) -> index_ok (fst (fold_left row_step rows acc)).
Proof.
  induction rows as [|tr rows IH]; intros acc H; [exact H|].
  simpl. apply IH, row_step_ok, H.
Qed.

(** Before the first object row the state does not move. *)
Lemma html_no_object : forall rows,
  forallb (fun tr => negb (mem "object" (h_classes tr))) rows = true ->
  fold_left row_step rows ([], "") = ([], "").
Proof.
  induction rows as [|tr rows IH]; intros H; [reflexivity|].
  simpl in H. apply andb_prop in H as [Ht Hr]. cbn [fold_left].
  replace (row_step ([], "") tr) with ((@nil (string * string)), "").
  - now apply IH.
  - unfold row_step. apply negb_true_iff in Ht. rewrite Ht. simpl.
    repeat match goal with
           | |- context [if ?b then _ else _] => destruct b
           end; reflexivity.
Qed.

End TextFacts.

(* ------------------------------------------------------------------ *)
(** ** Parameter records *)

Module RecordFacts.

Import NormalizeFacts.

(** The fields the record gets from the element and never loses. *)
Definition ident (r : prec) : string * string * string * string * string :=
  (p_object_name r, p_parameter_name r, p_full_path r, p_access r, p_version r).

Lemma process_syntax_ident : forall root r s,
  ident (process_syntax root r s) = ident r.
Proof.
  intros root r s. unfold process_syntax.
  destruct (scan_syntax (kids s) (p_object_default r)) as [d1 rf].
  destruct (otruthy rf); [reflexivity|].
  now destruct (inline_syntax (kids s) d1).
Qed.

Lemma process_syntaxes_ident : forall root l r,
  ident (process_syntaxes root l r) = ident r.
Proof.
  intros root l. unfold process_syntaxes. induction l as [|s l IH]; intros r;
    [reflexivity|]. simpl. rewrite IH.
  destruct (contains "syntax" (lower (tag s))); [|reflexivity].
  apply process_syntax_ident.
Qed.

Lemma apply_template_ident : forall td r, ident (apply_template td r) = ident r.
Proof.
  intros [t|] r; [|reflexivity]. unfold apply_template.
  repeat match goal with
         | |- context [if ?b then _ else _] => destruct b
         end; reflexivity.
Qed.

Lemma apply_reference_ident : forall rd r, ident (apply_reference rd r) = ident r.
Proof.
  intros [[d t]|] r; [|reflexivity]. unfold apply_reference.
  repeat match goal with
         | |- context [if ?b then _ else _] => destruct b
         end; reflexivity.
Qed.

Lemma extract_ident : forall fuel p parent refs tmpls html root r,
  extract_parameter_data fuel p parent refs tmpls html root = Some r ->
  ident r = (parent, get_d p "name", full_path_of parent (get_d p "name"),
             get_d p "access", get_d p "version").
Proof.
  intros fuel p parent refs tmpls html root r H.
  destruct (ParamFacts.extract_shape _ _ _ _ _ _ _ _ H) as (td & _ & _ & rd & ->).
  rewrite apply_reference_ident, apply_template_ident.
  unfold base_record. rewrite process_syntaxes_ident. reflexivity.
Qed.

Lemma full_path_clean : forall parent name,
  all_chars not_space (full_path_of parent name) = true /\
  lstrip_by is_dot (full_path_of parent name) = full_path_of parent name /\
  rstrip_by is_dot (full_path_of parent name) = full_path_of parent name.
Proof.
  intros parent name. unfold full_path_of. rewrite rstrip_of_strip, replace_space.
  split; [|split].
  - unfold strip_by. apply rstrip_keeps, lstrip_keeps, delete_no_space.
  - apply lstrip_of_strip.
  - apply rstrip_of_strip.
Qed.

End RecordFacts.

(* ------------------------------------------------------------------ *)
(** ** Macros, templates, dataTypes and rows *)

Module MoreFacts.

Import NormalizeFacts TextFacts.

(** The characters allowed inside a macro argument that the lazy match
    reads to its end. *)
Definition arg_char (c : ascii) : bool :=
  negb (Ascii.eqb c "}") && negb (Ascii.eqb c "010").

Lemma find_close_arg : forall x rest,
  all_chars arg_char x = true -> find_close (x ++ "}}" ++ rest) = Some (x, rest).
Proof.
  induction x as [|c x IH]; intros rest H.
  - cbn. now rewrite startswith_nil, Nat.sub_0_r, substring_whole.
  - simpl in H. apply andb_prop in H as [Hc Hx].
    unfold arg_char in Hc. apply andb_prop in Hc as [H1 H2].
    apply negb_true_iff in H1, H2.
    pose proof (IH rest Hx) as IH'. cbn [append] in IH' |- *.
    cbn [find_close]. rewrite IH'.
    change (startswith (String c (x ++ String "}" (String "}" rest))) "}}")
      with (Ascii.eqb "}" c && startswith (x ++ String "}" (String "}" rest)) "}").
    rewrite Ascii.eqb_sym, H1, H2. reflexivity.
Qed.

Lemma macro_sub_nil : forall n f, macro_sub n f "" = "".
Proof. now intros [|n] f. Qed.

Lemma rstrip_app : forall q a b,
  rstrip_by q (a ++ b) =
  if String.eqb (rstrip_by q b) "" then rstrip_by q a else a ++ rstrip_by q b.
Proof.
  intros q. induction a as [|c a IH]; intros b; simpl.
  - destruct (String.eqb (rstrip_by q b) "") eqn:E; [|reflexivity].
    now apply String.eqb_eq in E.
  - rewrite IH. destruct (String.eqb (rstrip_by q b) "") eqn:E; [reflexivity|].
    destruct (a ++ rstrip_by q b) eqn:Ea.
    + destruct a; [|discriminate]. simpl in Ea. rewrite Ea in E. discriminate.
    + reflexivity.
Qed.

Lemma lstrip_rstrip_comm : forall q x,
  lstrip_by q (rstrip_by q x) = rstrip_by q (lstrip_by q x).
Proof.
  intros q. induction x as [|c x IH]; [reflexivity|]. simpl.
  destruct (q c) eqn:Ec.
  - rewrite <- IH. destruct (String.eqb (rstrip_by q x) "") eqn:E; simpl.
    + apply String.eqb_eq in E. now rewrite E.
    + now rewrite Ec.
  - rewrite andb_false_r. cbn [lstrip_by rstrip_by]. now rewrite Ec, andb_false_r.
Qed.

Lemma strip_rstrip : forall q x, strip_by q (rstrip_by q x) = strip_by q x.
Proof.
  intros q x. unfold strip_by. now rewrite lstrip_rstrip_comm, rstrip_idem.
Qed.

Lemma strip_arg_macro : forall pre x,
  In pre ["param|"; "object|"; "bibref|"] ->
  strip (pre ++ x) = pre ++ rstrip_by is_space x.
Proof.
  intros pre x Hin. unfold strip, strip_by. rewrite lstrip_app.
  destruct Hin as [<-|[<-|[<-|[]]]]; cbn [lstrip_by is_space];
    simpl String.eqb; cbv iota; rewrite rstrip_app;
    (destruct (String.eqb (rstrip_by is_space x) "") eqn:E;
     [apply String.eqb_eq in E; rewrite E; reflexivity | reflexivity]).
Qed.

Lemma macro_replacer_arg : forall pre y pn op,
  In pre ["param|"; "object|"; "bibref|"] ->
  macro_replacer pn op (pre ++ y) = rstrip_by is_space y.
Proof.
  intros pre y pn op Hin. unfold macro_replacer.
  rewrite (strip_arg_macro _ _ Hin).
  destruct Hin as [<-|[<-|[<-|[]]]]; cbn; now rewrite startswith_nil.
Qed.

(** The template pass keeps the links of a template and every non-empty
    field. *)
Definition keeps (t0 t : template) : Prop :=
  t_name t = t_name t0 /\ t_ref t = t_ref t0 /\ t_template t = t_template t0 /\
  (truthy (t_description t0) = true -> t_description t = t_description t0) /\
  (truthy (t_data_type t0) = true -> t_data_type t = t_data_type t0) /\
  (truthy (t_default_value t0) = true -> t_default_value t = t_default_value t0).

Lemma keeps_refl : forall t, keeps t t.
Proof. intros t. repeat split; auto. Qed.

Lemma keeps_trans : forall a b c, keeps a b -> keeps b c -> keeps a c.
Proof.
  intros a b c (H1 & H2 & H3 & H4 & H5 & H6) (G1 & G2 & G3 & G4 & G5 & G6).
  repeat split; try congruence.
  - intros H. rewrite G4; [auto|]. now rewrite H4.
  - intros H. rewrite G5; [auto|]. now rewrite H5.
  - intros H. rewrite G6; [auto|]. now rewrite H6.
Qed.

Lemma fill_keeps : forall cur parent, truthy cur = true -> fill cur parent = cur.
Proof. intros cur parent H. unfold fill. now rewrite H. Qed.

Lemma lookup_dict_set {V} : forall (d : list (string * V)) k k' v,
  lookup k (dict_set k' v d) = if String.eqb k k' then Some v else lookup k d.
Proof.
  induction d as [|[k0 v0] d IH]; intros k k' v; simpl.
  - now destruct (String.eqb k k').
  - destruct (String.eqb k' k0) eqn:E.
    + apply String.eqb_eq in E. subst k0. simpl.
      now destruct (String.eqb k k').
    + simpl. destruct (String.eqb k k0) eqn:E0.
      * apply String.eqb_eq in E0. subst k0.
        destruct (String.eqb k k') eqn:E1; [|reflexivity].
        apply String.eqb_eq in E1. subst. now rewrite String.eqb_refl in E.
      * apply IH.
Qed.

Lemma inherit_step_keeps : forall tbl k' k t0,
  lookup k tbl = Some t0 ->
  exists t, lookup k (inherit_step tbl k') = Some t /\ keeps t0 t.
Proof.
  intros tbl k' k t0 H. unfold inherit_step.
  destruct (lookup k' tbl) as [t'|] eqn:E1; [|exists t0; split; auto using keeps_refl].
  destruct (truthy (t_template t')); [|exists t0; split; auto using keeps_refl].
  destruct (lookup (t_template t') tbl) as [p|];
    [|exists t0; split; auto using keeps_refl].
  rewrite lookup_dict_set. destruct (String.eqb k k') eqn:E.
  - apply String.eqb_eq in E. subst k'. rewrite H in E1. injection E1 as <-.
    eexists. split; [reflexivity|].
    repeat split; simpl; auto using fill_keeps.
  - exists t0. split; auto using keeps_refl.
Qed.

Lemma inherit_pass_keeps : forall ks tbl k t0,
  lookup k tbl = Some t0 ->
  exists t, lookup k (fold_left inherit_step ks tbl) = Some t /\ keeps t0 t.
Proof.
  induction ks as [|k' ks IH]; intros tbl k t0 H.
  - exists t0. split; auto using keeps_refl.
  - simpl. destruct (inherit_step_keeps tbl k' k t0 H) as (t1 & H1 & K1).
    destruct (IH _ _ _ H1) as (t2 & H2 & K2).
    exists t2. split; [exact H2 | eapply keeps_trans; eauto].
Qed.

(** Step 1 of the chain walk skips the description children only. *)
Lemma first_child_type_skip : forall pre c post,
  forallb (fun x => String.eqb (ltag x) "description") pre = true ->
  first_child_type (pre ++ c :: post) = first_child_type (c :: post).
Proof.
  induction pre as [|x pre IH]; intros c post H; [reflexivity|].
  simpl in H. apply andb_prop in H as [Hx Hp]. simpl. rewrite Hx. now apply IH.
Qed.

Lemma truthy_app_l : forall a b, truthy a = true -> truthy (a ++ b) = true.
Proof. now intros [|c a] b. Qed.

Lemma truthy_lower : forall s, truthy (lower s) = truthy s.
Proof. now intros [|c s]. Qed.

Lemma extract_type_info_nonempty : forall e,
  truthy (ltag e) = true -> truthy (extract_type_info e) = true.
Proof.
  intros e H. rewrite <- truthy_lower in H. unfold extract_type_info.
  destruct (enum_values e) as [|v vs];
    [|destruct (String.eqb (lower (ltag e)) "string" && _)];
    destruct (size_ranges e); simpl;
    repeat apply truthy_app_l; try exact H; reflexivity.
Qed.

(** The rows of [process_xml_file] in order: each parameter row follows
    the object row of its Object Name, and no row has an empty or ["."]
    name. *)
Fixpoint rows_ok (cur : option string) (rows : list row) : bool :=
  match rows with
  | [] => true
  | ObjectRow o :: rs =>
      negb (degenerate (o_object_name o)) && rows_ok (Some (o_object_name o)) rs
  | ParameterRow p :: rs =>
      match cur with Some n => String.eqb (p_object_name p) n | None => false end
      && negb (degenerate (p_parameter_name p))
      && negb (degenerate (p_full_path p))
      && rows_ok cur rs
  end.

Lemma param_rows_ok : forall fuel ps oname refs tmpls html root rest,
  rows_ok (Some oname) rest = true ->
  rows_ok (Some oname)
    (app (fst (param_rows fuel ps oname refs tmpls html root)) rest) = true.
Proof.
  induction ps as [|p ps IH]; intros oname refs tmpls html root rest Hr;
    simpl; [exact Hr|].
  destruct (extract_parameter_data fuel p oname refs tmpls html root) as [r|] eqn:E;
    [|exact Hr].
  specialize (IH oname refs tmpls html root rest Hr).
  destruct (param_rows fuel ps oname refs tmpls html root) as [rs ok].
  simpl in IH |- *.
  destruct (degenerate (p_parameter_name r) || degenerate (p_full_path r)) eqn:Ed;
    [exact IH|].
  apply orb_false_iff in Ed as [Ed1 Ed2]. simpl.
  pose proof (RecordFacts.extract_ident _ _ _ _ _ _ _ _ E) as Hi.
  unfold RecordFacts.ident in Hi. injection Hi as Ho _ _ _ _.
  rewrite Ho, String.eqb_refl, Ed1, Ed2. exact IH.
Qed.

Lemma str_app_assoc : forall a b c : string, (a ++ b) ++ c = a ++ (b ++ c).
Proof. induction a as [|x a IH]; intros b c; simpl; [reflexivity | now rewrite IH]. Qed.

Lemma str_app_nil : forall a : string, a ++ "" = a.
Proof. induction a as [|x a IH]; simpl; [reflexivity | now rewrite IH]. Qed.

Lemma all_chars_app : forall P a b,
  all_chars P (a ++ b) = all_chars P a && all_chars P b.
Proof.
  intros P. induction a as [|x a IH]; intros b; simpl; [reflexivity|].
  now rewrite IH, andb_assoc.
Qed.

(** One whole-text macro whose argument holds no ['}'] and no newline. *)
Lemma macro_sub_one : forall n f inner,
  all_chars arg_char inner = true ->
  macro_sub (S n) f ("{{" ++ inner ++ "}}") = f inner.
Proof.
  intros n f inner H. cbn [macro_sub append].
  replace (startswith (String "{" (String "{" (inner ++ "}}"))) "{{") with true
    by (simpl; now rewrite startswith_nil).
  cbv iota. cbn [String.length substring Nat.sub].
  rewrite Nat.sub_0_r, substring_whole.
  pose proof (find_close_arg inner "" H) as Hf. cbn [append] in Hf.
  rewrite Hf. now rewrite macro_sub_nil, str_app_nil.
Qed.

Lemma step_hexbinary : forall st h,
  ltag' h = "hexbinary" ->
  syntax_step st h =
  {| is_list := is_list st; data_type := "hexbinary";
     formatted_type := hexbinary_type h; size_elem := size_elem st;
     range_elem := range_elem st; dflt := value_default (kids h) (dflt st) |}.
Proof. intros st h H. unfold syntax_step. now rewrite H. Qed.

Lemma step_list : forall st l,
  ltag' l = "list" ->
  syntax_step st l =
  match first_hexbinary (kids l) with
  | Some x => {| is_list := true; data_type := "hexbinary";
                 formatted_type := hexbinary_type x;
                 size_elem := find_desc l "size"; range_elem := find_desc l "range";
                 dflt := dflt st |}
  | None => {| is_list := true; data_type := data_type st;
               formatted_type := formatted_type st;
               size_elem := find_desc l "size"; range_elem := find_desc l "range";
               dflt := dflt st |}
  end.
Proof. intros st l H. unfold syntax_step. rewrite H. reflexivity. Qed.

Lemma hexbinary_type_nonempty : forall x, truthy (hexbinary_type x) = true.
Proof.
  intros x. unfold hexbinary_type.
  destruct (flat_map _ (findall_desc x "size")); reflexivity.
Qed.

(** The reference table only grows by entries of [reference] elements
    with both attributes set. *)
Definition ref_ok (model : elem) (d : list (string * string)) : Prop :=
  forall k v, In (k, v) d ->
  truthy k = true /\ truthy v = true /\
  exists e, In e (iter model) /\ contains "reference" (lower (tag e)) = true /\
            get_d e "name" = k /\ get_d e "targetParamRef" = v.

Lemma build_references_ok_aux : forall model l d,
  incl l (iter model) -> ref_ok model d ->
  ref_ok model
    (fold_left (fun d e =>
                  if contains "reference" (lower (tag e)) then
                    let n := get_d e "name" in
                    let t := get_d e "targetParamRef" in
                    if truthy n && truthy t then dict_set n t d else d
                  else d) l d).
Proof.
  intros model. induction l as [|e l IH]; intros d Hl Hd; [exact Hd|].
  simpl. apply IH; [intros x Hx; apply Hl; now right|].
  destruct (contains "reference" (lower (tag e))) eqn:Er; [|exact Hd].
  destruct (truthy (get_d e "name") && truthy (get_d e "targetParamRef")) eqn:Et;
    [|exact Hd].
  apply andb_prop in Et as [Hn Ht].
  intros k v Hin. apply TextFacts.dict_set_in in Hin as [[-> ->]|Hin]; [|now apply Hd].
  split; [exact Hn|]. split; [exact Ht|].
  exists e. repeat split; auto. apply Hl. now left.
Qed.

(** Lower-casing commutes with the other steps of [normalize_path]. *)
Lemma lower_lstrip_dot : forall s,
  lower (lstrip_by is_dot s) = lstrip_by is_dot (lower s).
Proof.
  induction s as [|c s IH]; [reflexivity|]. cbn [lower lstrip_by].
  rewrite lower_char_dot. now destruct (is_dot c).
Qed.

Lemma lower_empty : forall s, String.eqb (lower s) "" = String.eqb s "".
Proof. now intros [|c s]. Qed.

Lemma lower_rstrip_dot : forall s,
  lower (rstrip_by is_dot s) = rstrip_by is_dot (lower s).
Proof.
  induction s as [|c s IH]; [reflexivity|]. cbn [lower rstrip_by].
  rewrite <- IH, lower_empty, lower_char_dot.
  now destruct (String.eqb (rstrip_by is_dot s) "" && is_dot c).
Qed.

Lemma lower_delete_space : forall s,
  lower (delete_char " " s) = delete_char " " (lower s).
Proof.
  induction s as [|c s IH]; [reflexivity|]. cbn [lower delete_char].
  rewrite lower_char_space. destruct (Ascii.eqb c " "); cbn [lower]; now rewrite IH.
Qed.

Lemma lower_no_space : forall s,
  all_chars not_space s = true -> all_chars not_space (lower s) = true.
Proof.
  induction s as [|c s IH]; intros H; [reflexivity|]. cbn [lower all_chars] in *.
  apply andb_prop in H as [Hc Hs]. unfold not_space in *.
  now rewrite lower_char_space, Hc, IH.
Qed.

(** Prefixes, suffixes and occurrences of a pattern. *)
Lemma startswith_app : forall a b p,
  startswith a p = true -> startswith (a ++ b) p = true.
Proof.
  induction a as [|c a IH]; intros b [|d p] H.
  - apply startswith_nil.
  - discriminate.
  - apply startswith_nil.
  - cbn in H |- *. apply andb_prop in H as [H1 H2]. now rewrite H1, IH.
Qed.

Lemma contains_app_l : forall p a b,
  contains p (a ++ b) = false -> contains p a = false.
Proof.
  intros p. induction a as [|c a IH]; intros b H.
  - destruct (contains p "") eqn:E; [|reflexivity].
    cbn [contains] in E. rewrite orb_false_r in E.
    apply (startswith_app "" b) in E. cbn [append] in E, H.
    destruct b; cbn [contains] in H; rewrite E in H; discriminate.
  - cbn [append contains] in H |- *. apply orb_false_iff in H as [H1 H2].
    rewrite (IH b H2), orb_false_r.
    destruct (startswith (String c a) p) eqn:E; [|reflexivity].
    apply (startswith_app _ b) in E. cbn [append] in E. now rewrite E in H1.
Qed.

Lemma contains_app_r : forall p a b,
  contains p (a ++ b) = false -> contains p b = false.
Proof.
  intros p. induction a as [|c a IH]; intros b H; [exact H|].
  cbn [append contains] in H. apply orb_false_iff in H as [_ H]. exact (IH b H).
Qed.

Lemma lstrip_suffix : forall q s, exists a, s = a ++ lstrip_by q s.
Proof.
  intros q. induction s as [|c s IH]; [now exists ""|]. cbn [lstrip_by].
  destruct (q c); [|now exists ""].
  destruct IH as [a Ha]. exists (String c a). cbn. now rewrite <- Ha.
Qed.

Lemma rstrip_prefix : forall q s, exists b, s = rstrip_by q s ++ b.
Proof.
  intros q. induction s as [|c s IH]; [now exists ""|]. cbn [rstrip_by].
  destruct (String.eqb (rstrip_by q s) "" && q c); [now exists (String c s)|].
  destruct IH as [b Hb]. exists b. cbn. now rewrite <- Hb.
Qed.

Lemma contains_strip : forall p s,
  contains p s = false -> contains p (strip s) = false.
Proof.
  intros p s H. unfold strip, strip_by.
  destruct (lstrip_suffix is_space s) as [a Ha].
  destruct (rstrip_prefix is_space (lstrip_by is_space s)) as [b Hb].
  rewrite Ha in H. apply contains_app_r in H. rewrite Hb in H.
  exact (contains_app_l _ _ _ H).
Qed.

Lemma startswith_contains : forall q p s,
  startswith s (q ++ p) = true -> contains p s = true.
Proof.
  induction q as [|x q IH]; intros p s H.
  - destruct s; cbn in H |- *; now rewrite H.
  - destruct s as [|d s]; [discriminate|]. cbn in H.
    apply andb_prop in H as [_ H]. cbn [contains]. rewrite (IH _ _ H).
    apply orb_true_r.
Qed.

Lemma contains_infix : forall q p s,
  contains p s = false -> contains (q ++ p) s = false.
Proof.
  intros q p. induction s as [|c s IH]; intros H.
  - destruct (contains (q ++ p) "") eqn:E; [|reflexivity].
    cbn [contains] in E. rewrite orb_false_r in E.
    apply startswith_contains in E. now rewrite E in H.
  - cbn [contains] in H |- *. apply orb_false_iff in H as [H1 H2].
    rewrite (IH H2), orb_false_r.
    destruct (startswith (String c s) (q ++ p)) eqn:E; [|reflexivity].
    apply startswith_contains in E. cbn [contains] in E.
    now rewrite H1, H2 in E.
Qed.

Lemma replace_aux_absent : forall n old new s,
  contains old s = false -> replace_aux n old new s = s.
Proof.
  induction n as [|n IH]; intros old new [|c s] H; try reflexivity.
  cbn [contains] in H. apply orb_false_iff in H as [H1 H2].
  cbn [replace_aux]. rewrite H1. now rewrite IH.
Qed.

(** What the lazy match captures: the text before the first [}}], which
    holds no [}}] itself. *)
Lemma find_close_split : forall s inner rest,
  find_close s = Some (inner, rest) ->
  s = inner ++ "}}" ++ rest /\ contains "}}" inner = false.
Proof.
  induction s as [|c s IH]; intros inner rest H; [discriminate|].
  cbn [find_close] in H.
  destruct (startswith (String c s) "}}") eqn:Es.
  - injection H as <- <-. split; [|reflexivity].
    destruct s as [|d s]; cbn [startswith] in Es;
      [rewrite andb_false_r in Es; discriminate|].
    apply andb_prop in Es as [E1 Es]. apply andb_prop in Es as [E2 _].
    apply Ascii.eqb_eq in E1, E2. subst.
    cbn. now rewrite Nat.sub_0_r, substring_whole.
  - destruct (Ascii.eqb c "010"); [discriminate|].
    destruct (find_close s) as [[i r]|] eqn:Ef; [|discriminate].
    injection H as <- <-. destruct (IH i r eq_refl) as [Hs Hi].
    split; [cbn; now rewrite Hs|].
    cbn [contains]. rewrite Hi, orb_false_r.
    destruct i as [|d i]; [cbn [startswith]; now rewrite andb_false_r|].
    subst s. cbn [append startswith] in Es |- *.
    destruct (Ascii.eqb "}" c); [|reflexivity].
    destruct (Ascii.eqb "}" d); [|reflexivity]. cbn [andb] in Es.
    now rewrite startswith_nil in Es.
Qed.

(** The lookup key of a parameter's Full Path is the key of the plain
    concatenation of its parent path and name. *)
Lemma full_path_key : forall parent name,
  normalize_path (full_path_of parent name) =
  normalize_path (rstrip_by is_dot parent ++ "." ++ name).
Proof.
  intros parent name. unfold full_path_of.
  rewrite rstrip_of_strip, !normalize_path_eq, replace_space.
  set (q := rstrip_by is_dot parent ++ "." ++ name).
  assert (Hns : all_chars not_space (lower (strip_by is_dot (delete_char " " q))) = true).
  { apply lower_no_space. unfold strip_by.
    apply rstrip_keeps, lstrip_keeps, delete_no_space. }
  rewrite (delete_of_no_space _ Hns). unfold strip_by at 2.
  rewrite lower_rstrip_dot, lower_lstrip_dot, lower_delete_space.
  apply strip_idem.
Qed.

Lemma find_none_tag : forall o t,
  forallb (fun c => negb (String.eqb (tag c) t)) (kids o) = true -> find o t = None.
Proof.
  intros [tg a x y k] t H. unfold find, findall. cbn [kids] in *.
  induction k as [|c k IH]; [reflexivity|]. cbn in H |- *.
  apply andb_prop in H as [Hc Hk]. apply negb_true_iff in Hc. rewrite Hc.
  exact (IH Hk).
Qed.

Lemma lookup_in : forall {V} k (l : list (string * V)) v,
  lookup k l = Some v -> In (k, v) l.
Proof.
  intros V k l v. induction l as [|[k' v'] l IH]; simpl; [discriminate|].
  destruct (String.eqb k k') eqn:E.
  - apply String.eqb_eq in E as ->. injection 1 as <-. now left.
  - intros H. right. exact (IH H).
Qed.

End MoreFacts.

(* ------------------------------------------------------------------ *)
(** ** Claims *)

Import NormalizeFacts ChainFacts TemplateFacts ParamFacts.

(** C1 (bracket law): the inline list branch puts the range of an [int]
    in parentheses, [int(1:10)], where the non-list branch and
    [extract_type_info] put the same range in square brackets,
    [int[1:10]]. *)
Theorem list_int_range_in_parentheses :
  option_map p_data_type
    (extract_parameter_data 1 list_int_param "Device.Test." [] [] [] test_root)
  = Some "int(1:10)" /\
  option_map p_data_type
    (extract_parameter_data 1 plain_int_param "Device.Test." [] [] [] test_root)
  = Some "int[1:10]" /\
  extract_type_info (el "int" [range_1_10]) = "int[1:10]".
Proof. split; [|split]; reflexivity. Qed.

(** C2 (priority law): a non-empty Description, Data Type or Object
    Default of the record built from the documentation index, the embedded
    description and the syntax block is never replaced by the template or
    the reference; a non-empty field filled by the template is never
    replaced by the reference; a non-empty documentation match is the final
    description, and without any documentation match a non-empty embedded
    description is the final description whatever the template holds. *)
Theorem parameter_field_priority :
  forall fuel p parent refs tmpls html root r,
  extract_parameter_data fuel p parent refs tmpls html root = Some r ->
  (forall f, truthy (getf f (base_record p parent html root)) = true ->
             getf f r = getf f (base_record p parent html root)) /\
  (forall f td, truthy (get_d p "template") = true ->
     extract_template_data fuel (get_d p "template") tmpls = Some td ->
     truthy (getf f (apply_template td (base_record p parent html root))) = true ->
     getf f r = getf f (apply_template td (base_record p parent html root))) /\
  (forall d, lookup (normalize_path (full_path_of parent (get_d p "name"))) html
             = Some d -> truthy d = true -> p_description r = d) /\
  (lookup (normalize_path (full_path_of parent (get_d p "name"))) html = None ->
   relaxed_match (replace "{i}" "" (normalize_path
                    (full_path_of parent (get_d p "name")))) html = None ->
   forall d, xml_description (get_d p "name") parent (kids p) = Some d ->
   truthy d = true -> p_description r = d).
Proof.
  intros fuel p parent refs tmpls html root r H.
  split; [|split; [|split]].
  - intros f Ht. exact (final_keeps _ _ _ _ _ _ _ _ f H Ht).
  - intros f td Htr Htd Ht.
    destruct (extract_shape _ _ _ _ _ _ _ _ H) as (td' & _ & Hs & rd & ->).
    rewrite Hs in Htd by exact Htr. injection Htd as ->.
    now apply apply_reference_keeps.
  - intros d Hl Hd.
    assert (Hb : p_description (base_record p parent html root) = d).
    { rewrite base_description. unfold html_or_xml_description. now rewrite Hl. }
    change (p_description r) with (getf FDescription r).
    rewrite (final_keeps _ _ _ _ _ _ _ _ FDescription H); simpl; rewrite Hb;
      [reflexivity | exact Hd].
  - intros Hl Hr d Hx Hd.
    assert (Hb : p_description (base_record p parent html root) = d).
    { rewrite base_description. unfold html_or_xml_description.
      now rewrite Hl, Hr, Hx. }
    change (p_description r) with (getf FDescription r).
    rewrite (final_keeps _ _ _ _ _ _ _ _ FDescription H); simpl; rewrite Hb;
      [reflexivity | exact Hd].
Qed.

Lemma parameter_field_priority_witness :
  exists r, extract_parameter_data 2 templated_param "Device.Test." []
              chained_templates [] test_root = Some r /\
            p_description r = "Embedded text".
Proof.
  eexists. split; [reflexivity|].
  destruct (parameter_field_priority 2 templated_param "Device.Test." []
              chained_templates [] test_root _ eq_refl) as (_ & _ & _ & H4).
  exact (H4 eq_refl eq_refl "Embedded text" eq_refl eq_refl).
Defined.

(** C3 (chain termination): the dataType walk returns within one call more
    than there are definitions, for every table and name; along an acyclic
    base chain of [N] definitions it returns within [N] calls; an unknown
    name gives [None]; and so does a name whose definition lies in a set
    of definitions closed under the base link with no type of their own:
    every unbroken cycle, whether a definition basing on itself, two or
    more definitions basing on each other, or a cycle entered after a
    prefix of the chain. *)
Theorem resolve_datatype_reference_terminates :
  (forall root n,
     resolve_datatype_reference_fuel (S (length (datatypes root))) n root
     <> None) /\
  (forall root n N, chain (datatypes root) n N ->
     resolve_datatype_reference_fuel N n root <> None) /\
  (forall root n, find_datatype (datatypes root) n = None ->
     resolve_datatype_reference n root = None) /\
  (forall root n (ds : list elem),
     (forall d, In d ds -> local_type d = None) ->
     (forall d b p, In d ds -> get d "base" = Some b ->
        find_datatype (datatypes root) b = Some p -> In p ds) ->
     (forall d, find_datatype (datatypes root) n = Some d -> In d ds) ->
     resolve_datatype_reference n root = None).
Proof.
  split; [exact resolve_total|]. split; [exact resolve_chain|].
  split; [exact resolve_missing | exact resolve_closed_none].
Qed.

Lemma resolve_datatype_reference_terminates_witness :
  resolve_datatype_reference_fuel 3 "C" chain_types_root <> None /\
  resolve_datatype_reference "Z" cyclic_types_root = None /\
  resolve_datatype_reference "A" cyclic_types_root = None /\
  resolve_datatype_reference "P" cycle_types_root = None /\
  resolve_datatype_reference "S" cycle_types_root = None.
Proof.
  destruct resolve_datatype_reference_terminates as (_ & H2 & H3 & H4).
  split; [|split; [|split; [|split]]].
  - apply H2.
    eapply chain_next; [reflexivity | reflexivity | reflexivity|].
    eapply chain_next; [reflexivity | reflexivity | reflexivity|].
    eapply chain_last; [reflexivity|]. intros b Hb; discriminate.
  - apply H3. reflexivity.
  - apply (H4 _ _ (datatypes cyclic_types_root)).
    + intros d Hd. vm_compute in Hd.
      repeat destruct Hd as [<-|Hd]; try contradiction; reflexivity.
    + intros d b p _ _ Hp. exact (proj1 (find_datatype_some _ _ _ Hp)).
    + intros d Hd. exact (proj1 (find_datatype_some _ _ _ Hd)).
  - apply (H4 _ _ (datatypes cycle_types_root)).
    + intros d Hd. vm_compute in Hd.
      repeat destruct Hd as [<-|Hd]; try contradiction; reflexivity.
    + intros d b p _ _ Hp. exact (proj1 (find_datatype_some _ _ _ Hp)).
    + intros d Hd. exact (proj1 (find_datatype_some _ _ _ Hd)).
  - apply (H4 _ _ [Elem "dataType" [("name", "S"); ("base", "S")] None None []]).
    + intros d [<-|[]]. reflexivity.
    + intros d b p [<-|[]] Hb Hp. injection Hb as <-.
      vm_compute in Hp. injection Hp as <-. now left.
    + intros d Hd. vm_compute in Hd. injection Hd as <-. now left.
Defined.

(** C4 (description priority), as stated: a parameter with an empty
    [<description/>] and no documentation match gets the empty description,
    not the sentinel. *)
Lemma empty_description_not_sentinel :
  lookup (normalize_path "Device.Test.Value") [] = (None : option string) /\
  xml_description "Value" "Device.Test." (kids empty_desc_param) = Some "" /\
  option_map p_description
    (extract_parameter_data 1 empty_desc_param "Device.Test." [] [] [] test_root)
  = Some "" /\
  "" <> no_description.
Proof. split; [|split; [|split]]; try reflexivity. discriminate. Qed.

(** C4 (description priority), amended: before the template and reference
    overlays the description is the exact documentation match, else the
    first documentation key equal up to [{i}] markers in insertion order,
    else the last embedded description child macro-substituted and
    whitespace-collapsed (possibly empty), and the sentinel only when the
    parameter has no description child. *)
Theorem description_reconciliation : forall p parent html root,
  p_description (base_record p parent html root) =
  reconcile_spec (full_path_of parent (get_d p "name")) (get_d p "name")
    parent html (kids p).
Proof.
  intros p parent html root. rewrite base_description.
  unfold html_or_xml_description, reconcile_spec.
  destruct (lookup _ html); [reflexivity|].
  rewrite relaxed_match_find.
  destruct (List.find _ html) as [[k d]|]; [reflexivity|]. simpl.
  rewrite xml_description_last.
  now destruct (last_opt _).
Qed.

(** C5 (template termination), as stated: with templates [A] and [B]
    each the parent of the other, the resolution of [A] never returns. *)
Lemma cyclic_template_never_returns :
  ~ exists fuel r, extract_template_data fuel "A" cyclic_templates = Some r.
Proof.
  intros (fuel & r & H).
  assert (Hcl : parent_closed cyclic_templates ["A"; "B"]).
  { intros m Hm; destruct Hm as [<-|[<-|[]]]; eexists;
      split; try reflexivity; split; try reflexivity; simpl; auto. }
  rewrite (template_cycle_diverges _ _ Hcl fuel "A") in H;
    [discriminate | simpl; auto].
Qed.

(** C5 (template termination), amended: the resolution follows parent
    links with neither a visited set nor a depth bound; it returns within
    [N] calls when the parent chain ends after [N] templates, and never
    returns when the chain enters a set of names closed under the parent
    link. *)
Theorem template_resolution_termination : forall tbl,
  (forall n N, tchain tbl n N -> extract_template_data N n tbl <> None) /\
  (forall S, parent_closed tbl S ->
     forall n fuel, In n S -> extract_template_data fuel n tbl = None).
Proof.
  intros tbl. split.
  - intros n N Hc. exact (template_chain_returns _ _ _ Hc N (le_n N)).
  - intros S Hcl n fuel Hn. exact (template_cycle_diverges _ _ Hcl fuel n Hn).
Qed.

Lemma template_resolution_termination_witness :
  extract_template_data 2 "C" chained_templates <> None /\
  extract_template_data 7 "B" cyclic_templates = None.
Proof.
  split.
  - apply (proj1 (template_resolution_termination chained_templates)).
    eapply tchain_next; [reflexivity | reflexivity|].
    eapply tchain_root; reflexivity.
  - apply (proj2 (template_resolution_termination cyclic_templates) ["A"; "B"]);
      [|simpl; auto].
    intros m Hm; destruct Hm as [<-|[<-|[]]]; eexists;
      split; try reflexivity; split; try reflexivity; simpl; auto.
Defined.

Lemma ltag_enumeration_not : forall c t,
  ltag c = "enumeration" -> mem t ["size"; "range"] = true ->
  String.eqb (tag c) t = false.
Proof.
  intros c t Hc Ht. destruct (String.eqb (tag c) t) eqn:E; [|reflexivity].
  apply String.eqb_eq in E. unfold ltag in Hc. rewrite E in Hc.
  simpl in Ht. destruct (String.eqb_spec t "size") as [->|_];
    [discriminate|].
  destruct (String.eqb_spec t "range") as [->|_]; [discriminate|discriminate].
Qed.

Lemma all_enumeration_no_constraints : forall e,
  forallb (fun c => String.eqb (ltag c) "enumeration") (kids e) = true ->
  size_ranges e = [].
Proof.
  intros e H. unfold size_ranges, find, findall.
  assert (Hf : forall t, mem t ["size"; "range"] = true ->
                 filter (fun c => String.eqb (tag c) t) (kids e) = []).
  { intros t Ht. induction (kids e) as [|c l IH]; [reflexivity|].
    simpl in H. apply andb_prop in H as [Hc Hl]. simpl.
    apply String.eqb_eq in Hc. rewrite (ltag_enumeration_not c t Hc Ht).
    now apply IH. }
  rewrite (Hf "size"), (Hf "range"); reflexivity.
Qed.

Lemma existsb_negb_forallb {A} (f : A -> bool) (l : list A) :
  existsb (fun x => negb (f x)) l = true -> forallb f l = false.
Proof.
  induction l as [|x l IH]; simpl; [discriminate|].
  destruct (f x); simpl; auto.
Qed.

(** C6 (enumeration collapse law): a [string] whose children are all
    enumerations renders as [string]; a [string] with enumeration values
    and some other child renders as [enum], then its size/range group in
    parentheses (empty when there is none), then the values in
    declaration order joined by commas in square brackets. *)
Theorem string_enum_collapse : forall e,
  lower (ltag e) = "string" ->
  (forallb (fun c => String.eqb (ltag c) "enumeration") (kids e) = true ->
   extract_type_info e = "string") /\
  (enum_values e <> [] ->
   existsb (fun c => negb (String.eqb (ltag c) "enumeration")) (kids e) = true ->
   extract_type_info e =
   ("enum" ++ size_range_str "string" (size_ranges e))
     ++ "[" ++ join "," (enum_values e) ++ "]").
Proof.
  intros e Htag. split.
  - intros Hall. unfold extract_type_info. rewrite Htag.
    rewrite (all_enumeration_no_constraints e Hall).
    destruct (enum_values e); [reflexivity|]. simpl. now rewrite Hall.
  - intros Hne Hex. unfold extract_type_info. rewrite Htag.
    rewrite (existsb_negb_forallb _ _ Hex).
    destruct (enum_values e) as [|v vs]; [contradiction|]. simpl.
    destruct (size_ranges e); reflexivity.
Qed.

Lemma string_enum_collapse_witness :
  extract_type_info enum_only_string = "string" /\
  extract_type_info enum_size_string = "enum(64)[A,B]".
Proof.
  split.
  - apply (proj1 (string_enum_collapse enum_only_string eq_refl)). reflexivity.
  - rewrite (proj2 (string_enum_collapse enum_size_string eq_refl));
      [reflexivity | discriminate | reflexivity].
Defined.

(** C7 (unresolvable type reference): when the single syntax block of a
    parameter names a dataType that does not resolve, the Data Type is
    [ref(<name>)] after the syntax stage and stays so in the final record
    (the overlays only fill empty fields). *)
Theorem unresolved_datatype_ref_placeholder :
  forall fuel p parent refs tmpls html root s n r,
  filter (fun c => contains "syntax" (lower (tag c))) (kids p) = [s] ->
  snd (scan_syntax (kids s) "") = Some n -> truthy n = true ->
  resolve_datatype_reference n root = None ->
  p_data_type (base_record p parent html root) = "ref(" ++ n ++ ")" /\
  (extract_parameter_data fuel p parent refs tmpls html root = Some r ->
   p_data_type r = "ref(" ++ n ++ ")").
Proof.
  intros fuel p parent refs tmpls html root s n r Hs Hn Htn Hres.
  assert (Hb : p_data_type (base_record p parent html root) = "ref(" ++ n ++ ")").
  { unfold base_record, process_syntaxes.
    rewrite (fold_filter (fun s => contains "syntax" (lower (tag s)))
               (process_syntax root)), Hs. simpl.
    unfold process_syntax.
    match goal with |- context [scan_syntax (kids s) ?d] =>
      pose proof (scan_syntax_ref (kids s) d "") as Hr;
      destruct (scan_syntax (kids s) d) as [d1 rf] end.
    simpl in Hr. rewrite Hn in Hr. subst rf. simpl. rewrite Htn, Hres.
    reflexivity. }
  split; [exact Hb|].
  intros H. change (p_data_type r) with (getf FDataType r).
  rewrite (final_keeps _ _ _ _ _ _ _ _ FDataType H); simpl; rewrite Hb;
    reflexivity.
Qed.

Lemma unresolved_datatype_ref_placeholder_witness :
  option_map p_data_type
    (extract_parameter_data 1 missing_ref_param "Device.Test." [] [] [] test_root)
  = Some "ref(Missing)".
Proof.
  destruct (extract_parameter_data 1 missing_ref_param "Device.Test." [] [] []
              test_root) as [r|] eqn:E; [|discriminate].
  simpl. f_equal.
  exact (proj2 (unresolved_datatype_ref_placeholder 1 missing_ref_param
                  "Device.Test." [] [] [] test_root
                  (el "syntax" [Elem "dataType" [("ref", "Missing")] None None []])
                  "Missing" r eq_refl eq_refl eq_refl eq_refl) E).
Defined.

(** C8 (path normalizer), as stated: a tab inside the path is whitespace
    but is kept by [normalize_path]. *)
Lemma normalize_path_keeps_tab :
  is_space "009"%char = true /\
  normalize_path (String "A" (String "009" (String "B" EmptyString)))
  = String "a" (String "009" (String "b" EmptyString)).
Proof. split; reflexivity. Qed.

(** C8 (path normalizer), amended: [normalize_path] lower-cases the path,
    deletes every space character (U+0020; other whitespace is kept) and
    then strips every leading and trailing ['.']; it is a total function
    whose result holds no space, no lower-casable character and no leading
    or trailing ['.'], and it maps [""] to [""]. *)
Theorem normalize_path_spec : forall p,
  normalize_path p = strip_by is_dot (delete_char " " (lower p)) /\
  all_chars lower_fixed (normalize_path p) = true /\
  all_chars not_space (normalize_path p) = true /\
  lstrip_by is_dot (normalize_path p) = normalize_path p /\
  rstrip_by is_dot (normalize_path p) = normalize_path p /\
  normalize_path "" = "".
Proof.
  intros p. destruct (normalize_chars p) as [Hl Hs].
  split; [apply normalize_path_eq|]. split; [exact Hl|]. split; [exact Hs|].
  rewrite normalize_path_eq.
  split; [apply lstrip_of_strip|]. split; [apply rstrip_of_strip|].
  reflexivity.
Qed.

(** C9 (end-to-end scenario): object [Device.Test.] with parameter [Value]
    (inline [int] ranged 1 to 10, embedded description
    ["Test value {{empty}}"], empty documentation index) yields the object
    row and a parameter row [Device.Test.Value] with Data Type
    [int[1:10]] and Description ["Test value an empty string"]. *)
Theorem end_to_end_test_value : forall fuel,
  exists o r,
  process_root fuel test_root [] = [ObjectRow o; ParameterRow r] /\
  p_full_path r = "Device.Test.Value" /\
  p_data_type r = "int[1:10]" /\
  p_description r = "Test value an empty string".
Proof.
  intros fuel. do 2 eexists. split; [reflexivity|].
  split; [|split]; reflexivity.
Qed.

(** C10 (normalization is idempotent). *)
Theorem normalize_path_idempotent : forall p,
  normalize_path (normalize_path p) = normalize_path p.
Proof.
  intros p. destruct (normalize_chars p) as [Hl Hs].
  assert (Hstrip : strip_by is_dot (normalize_path p) = normalize_path p).
  { rewrite normalize_path_eq. apply strip_idem. }
  rewrite (normalize_path_eq (normalize_path p)).
  rewrite (lower_of_fixed _ Hl), (delete_of_no_space _ Hs). exact Hstrip.
Qed.

(* ================================================================== *)
(** * Further properties *)

Import TextFacts RecordFacts.

(** [clean_text]: the result has only spaces as whitespace, never two in a
    row and none at either end, so cleaning it again changes nothing. *)
Theorem clean_text_idempotent : forall s,
  ws_ok false (clean_text s) = true /\
  strip (clean_text s) = clean_text s /\
  clean_text (clean_text s) = clean_text s.
Proof.
  intros s.
  assert (Hok : ws_ok false (clean_text s) = true).
  { unfold clean_text, strip, strip_by, collapse_ws.
    apply rstrip_ws_ok. apply (lstrip_ws_ok _ false). apply collapse_ws_ok. }
  split; [exact Hok|].
  assert (Hs : strip (clean_text s) = clean_text s).
  { unfold clean_text, strip. apply strip_idem. }
  split; [exact Hs|].
  unfold clean_text at 1. unfold collapse_ws. rewrite ws_ok_collapse by exact Hok.
  exact Hs.
Qed.

(** [substitute_macros]: a text holding no [{{] is only stripped of its
    surrounding whitespace. *)
Theorem substitute_macros_plain : forall text param_name object_path,
  contains "{{" text = false ->
  substitute_macros text param_name object_path = strip text.
Proof.
  intros text pn op H. unfold substitute_macros.
  destruct (truthy text) eqn:E; simpl.
  - now rewrite macro_sub_plain.
  - unfold truthy in E. apply negb_false_iff, String.eqb_eq in E. now subst.
Qed.

Lemma substitute_macros_plain_witness :
  substitute_macros " Enable the  link. " "Enable" "Device.X." = "Enable the  link.".
Proof.
  apply (substitute_macros_plain " Enable the  link. " "Enable" "Device.X.").
  reflexivity.
Defined.

(** [extract_parameter_data]: Object Name is the parent as given,
    Parameter Name, Access and Version are the element's attributes, and
    Full Path is [full_path_of parent name], which holds no space and has
    no leading or trailing ['.']; neither overlay nor syntax block
    changes these fields. *)
Theorem parameter_identity_fields : forall fuel p parent refs tmpls html root r,
  extract_parameter_data fuel p parent refs tmpls html root = Some r ->
  p_object_name r = parent /\ p_parameter_name r = get_d p "name" /\
  p_access r = get_d p "access" /\ p_version r = get_d p "version" /\
  p_full_path r = full_path_of parent (get_d p "name") /\
  all_chars not_space (p_full_path r) = true /\
  lstrip_by is_dot (p_full_path r) = p_full_path r /\
  rstrip_by is_dot (p_full_path r) = p_full_path r.
Proof.
  intros fuel p parent refs tmpls html root r H.
  pose proof (extract_ident _ _ _ _ _ _ _ _ H) as Hi. unfold ident in Hi.
  injection Hi as Ho Hn Hf Ha Hv. rewrite Hf.
  destruct (full_path_clean parent (get_d p "name")) as (H1 & H2 & H3).
  repeat split; assumption.
Qed.

Lemma parameter_identity_fields_witness :
  exists r, extract_parameter_data 1 test_param " Device..Test. " [] [] [] test_root
            = Some r /\ p_full_path r = "Device..Test..Value".
Proof.
  destruct (extract_parameter_data 1 test_param " Device..Test. " [] [] [] test_root)
    as [r|] eqn:E; [|vm_compute in E; discriminate].
  exists r. split; [reflexivity|].
  destruct (parameter_identity_fields 1 test_param " Device..Test. " [] [] []
              test_root r E) as (_ & _ & _ & _ & Hf & _).
  rewrite Hf. reflexivity.
Defined.

(** [extract_object_data]: the documentation index is looked up under the
    normalized object name, with or without its trailing ['.'], and a hit
    is the object's Description. *)
Theorem object_description_lookup : forall o html d,
  lookup (normalize_path (get_d o "name")) html = Some d ->
  o_description (extract_object_data o html) = d.
Proof.
  intros o html d H. unfold extract_object_data. simpl.
  destruct (endswith (get_d o "name") ".").
  - now rewrite H.
  - now rewrite normalize_path_dot, H.
Qed.

Lemma object_description_lookup_witness :
  o_description (extract_object_data
    (Elem "object" [("name", "Device.IP.")] None None [])
    [("device.ip", "IP object.")]) = "IP object." /\
  o_description (extract_object_data
    (Elem "object" [("name", "Device.IP")] None None [])
    [("device.ip", "IP object.")]) = "IP object.".
Proof.
  split; apply object_description_lookup; reflexivity.
Defined.

(** [main]: every key of [html_descriptions] is already normalized, so
    the exact lookup of a normalized path can hit it, and no empty
    description is ever stored. *)
Theorem html_descriptions_normalized : forall rows k v,
  In (k, v) (html_descriptions rows) ->
  normalize_path k = k /\ truthy v = true.
Proof.
  intros rows k v H. unfold html_descriptions in H.
  apply (html_index_ok rows ([], "")) in H; [exact H|].
  intros ? ? [].
Qed.

Lemma html_descriptions_normalized_witness :
  normalize_path "device.x" = "device.x" /\ truthy "Doc." = true.
Proof.
  apply (html_descriptions_normalized
           [{| h_classes := ["object"]; h_ncells := 3; h_name := "Device.X";
               h_description := "Doc." |}]).
  left. reflexivity.
Defined.

(** [main]: parameter rows count only after an object row: the rows
    before the first object row store nothing, whatever follows them
    (with no object row at all, the index is empty). *)
Theorem html_descriptions_need_object : forall pre rest,
  forallb (fun tr => negb (mem "object" (h_classes tr))) pre = true ->
  html_descriptions (app pre rest) = html_descriptions rest.
Proof.
  intros pre rest H. unfold html_descriptions.
  now rewrite fold_left_app, html_no_object.
Qed.

Lemma html_descriptions_need_object_witness :
  html_descriptions
    [{| h_classes := ["parameter"]; h_ncells := 3; h_name := "Enable";
        h_description := "Enables it." |};
     {| h_classes := ["object"]; h_ncells := 3; h_name := "Device.X";
        h_description := "" |};
     {| h_classes := ["parameter"]; h_ncells := 3; h_name := "Name";
        h_description := "Its name." |}] = [("device.x.name", "Its name.")].
Proof.
  apply (html_descriptions_need_object
    [{| h_classes := ["parameter"]; h_ncells := 3; h_name := "Enable";
        h_description := "Enables it." |}]); reflexivity.
Defined.

Import MoreFacts.

(** [substitute_macros]: a whole-text [{{param|x}}], [{{object|x}}] or
    [{{bibref|x}}] whose argument holds no ['}'] and no newline becomes
    its argument, stripped. *)
Theorem argument_macro_expands : forall pre x param_name object_path,
  In pre ["param|"; "object|"; "bibref|"] ->
  all_chars arg_char x = true ->
  substitute_macros ("{{" ++ pre ++ x ++ "}}") param_name object_path = strip x.
Proof.
  intros pre x pn op Hin Hx. unfold substitute_macros.
  change (truthy ("{{" ++ pre ++ x ++ "}}")) with true. cbv beta iota.
  change (negb true) with false. cbv iota.
  change (String.length ("{{" ++ pre ++ x ++ "}}"))
    with (S (S (String.length (pre ++ x ++ "}}")))).
  rewrite <- str_app_assoc, macro_sub_one.
  - rewrite macro_replacer_arg by exact Hin. unfold strip. apply strip_rstrip.
  - rewrite all_chars_app, Hx, andb_true_r.
    destruct Hin as [<-|[<-|[<-|[]]]]; reflexivity.
Qed.

Lemma argument_macro_expands_witness :
  substitute_macros "{{param|Enable }}" "X" "Device." = "Enable".
Proof.
  apply (argument_macro_expands "param|" "Enable " "X" "Device.").
  - left. reflexivity.
  - reflexivity.
Defined.

(** [process_xml_file], second template pass: a template keeps its name,
    reference and parent, and every field that the first pass gave a
    non-empty value; the pass only fills empty fields. *)
Theorem template_pass_keeps : forall root k t0,
  lookup k (collect_templates root) = Some t0 ->
  exists t, lookup k (build_templates root) = Some t /\ keeps t0 t.
Proof.
  intros root k t0 H. unfold build_templates. now apply inherit_pass_keeps.
Qed.

Lemma template_pass_keeps_witness :
  exists t, lookup "T" (build_templates template_root) = Some t /\
            t_description t = "Own".
Proof.
  destruct (template_pass_keeps template_root "T"
              {| t_name := "T"; t_ref := ""; t_template := "P";
                 t_description := "Own"; t_data_type := "";
                 t_default_value := "" |} eq_refl) as (t & Ht & K).
  exists t. split; [exact Ht|].
  destruct K as (_ & _ & _ & Kd & _). apply Kd. reflexivity.
Defined.

(** [extract_template_data]: a name absent from the table gives no data
    (not an error), and a found template's own non-empty fields are
    never replaced by those of its parents. *)
Theorem template_own_fields_win : forall fuel n tbl res,
  extract_template_data fuel n tbl = Some res ->
  (lookup n tbl = None -> res = None) /\
  (forall t, lookup n tbl = Some t ->
   exists d, res = Some d /\
   (truthy (t_description t) = true -> d_description d = t_description t) /\
   (truthy (t_data_type t) = true -> d_data_type d = t_data_type t) /\
   (truthy (t_default_value t) = true -> d_default_value d = t_default_value t)).
Proof.
  intros [|fuel] n tbl res H; [discriminate|]. simpl in H.
  destruct (lookup n tbl) as [t|] eqn:E.
  - split; [discriminate|]. intros t' Ht'. injection Ht' as <-.
    destruct (truthy (t_template t)).
    + destruct (extract_template_data fuel (t_template t) tbl) as [[p|]|];
        [| |discriminate]; injection H as <-; eexists; (split; [reflexivity|]).
      * simpl. repeat split; intros; apply fill_keeps; assumption.
      * simpl. auto.
    + injection H as <-. eexists. split; [reflexivity|]. simpl. auto.
  - split; [now injection H|]. discriminate.
Qed.

Lemma template_own_fields_win_witness :
  exists d, extract_template_data 2 "C" overriding_templates = Some (Some d) /\
            d_description d = "Own text".
Proof.
  destruct (template_own_fields_win 2 "C" overriding_templates _ eq_refl) as [_ H].
  destruct (H (mk_template "C" "D" "Own text") eq_refl) as (d & Hd & Hdesc & _).
  exists d. split; [rewrite <- Hd; reflexivity|]. apply Hdesc. reflexivity.
Defined.

(** [resolve_datatype_reference]: the first direct child of the
    definition that is not a description decides the type, rendered by
    [extract_type_info], whatever its tag (a facet such as [<size>]
    included); the [base] is then never followed. *)
Theorem datatype_first_child_wins : forall root n dt pre c post,
  find_datatype (datatypes root) n = Some dt ->
  kids dt = app pre (c :: post) ->
  forallb (fun x => String.eqb (ltag x) "description") pre = true ->
  String.eqb (ltag c) "description" = false ->
  truthy (ltag c) = true ->
  resolve_datatype_reference n root = Some (extract_type_info c).
Proof.
  intros root n dt pre c post Hf Hk Hp Hc Ht.
  unfold resolve_datatype_reference, resolve_datatype_reference_fuel.
  rewrite Hf. cbn [walk_base_chain]. unfold local_type.
  rewrite Hk, first_child_type_skip by exact Hp. cbn [first_child_type].
  rewrite Hc, extract_type_info_nonempty by exact Ht.
  now rewrite extract_type_info_nonempty by exact Ht.
Qed.

Lemma datatype_first_child_wins_witness :
  resolve_datatype_reference "IPv4Address" derived_types_root = Some "size".
Proof.
  apply (datatype_first_child_wins derived_types_root "IPv4Address"
           ipv4_address_type [el "description" []]
           (Elem "size" [("maxLength", "15")] None None []) []);
    reflexivity.
Defined.

(** [process_xml_file]: the rows start with an object row; every
    parameter row's Object Name is the name of the last object row before
    it, and no row has an empty or ["."] Object Name, Parameter Name or
    Full Path. *)
Theorem process_rows_grouped : forall fuel root html,
  rows_ok None (process_root fuel root html) = true.
Proof.
  intros fuel root html. unfold process_root.
  destruct (List.find _ (kids root)) as [model|]; [|reflexivity].
  generalize (@None string).
  induction (filter _ (iter model)) as [|o l IH]; intros cur; [reflexivity|].
  cbn [object_rows]. destruct (degenerate (o_object_name (extract_object_data o html))) eqn:Ed;
    [apply IH|].
  pose proof (param_rows_ok fuel
    (filter (fun e => contains "parameter" (lower (tag e))) (kids o))
    (o_object_name (extract_object_data o html)) (build_references model)
    (build_templates root) html root) as Hp.
  destruct (param_rows _ _ _ _ _ _ _) as [prs ok]. simpl in Hp.
  cbn [rows_ok]. rewrite Ed. simpl. apply Hp. destruct ok; [apply IH | reflexivity].
Qed.

(** [extract_parameter_data], inline syntax: whether the [hexBinary]
    element sits inside the [<list>], next to it, or alone, Data Type is
    the aggregated [hexbinary(...)] rendering of the sizes under the
    [hexBinary] element; a size on the [<list>] itself is not used. *)
Theorem inline_hexbinary_aggregated : forall l h d,
  ltag' h = "hexbinary" ->
  fst (inline_syntax [h] d) = hexbinary_type h /\
  (ltag' l = "list" -> first_hexbinary (kids l) = None ->
   fst (inline_syntax [l; h] d) = hexbinary_type h) /\
  (ltag' l = "list" -> first_hexbinary (kids l) = Some h ->
   fst (inline_syntax [l] d) = hexbinary_type h).
Proof.
  intros l h d Hh. unfold inline_syntax. cbn [fold_left].
  split; [|split]; [| intros Hl Hf | intros Hl Hf];
    rewrite ?(step_list _ l Hl), ?Hf, ?(step_hexbinary _ h Hh);
    cbn [is_list data_type formatted_type syn_init];
    unfold render_list, render_plain; cbn -[hexbinary_type find_desc];
    rewrite hexbinary_type_nonempty; cbv iota;
    now rewrite hexbinary_type_nonempty.
Qed.

Lemma inline_hexbinary_aggregated_witness :
  fst (inline_syntax [el "list" [Elem "size" [("maxLength", "8")] None None []];
                      el "hexBinary" [Elem "size" [("minLength", "2")] None None [];
                                      Elem "size" [("maxLength", "64")] None None []]]
         "") = "hexbinary(2:, 64)".
Proof.
  destruct (inline_hexbinary_aggregated
              (el "list" [Elem "size" [("maxLength", "8")] None None []])
              (el "hexBinary" [Elem "size" [("minLength", "2")] None None [];
                               Elem "size" [("maxLength", "64")] None None []]) ""
              eq_refl) as (_ & H & _).
  rewrite H by reflexivity. reflexivity.
Defined.

(** [extract_parameter_data], inline syntax: a plain [unsignedLong]
    ignores its [<range>]; Data Type is the bare kind. *)
Theorem inline_unsignedlong_drops_range : forall c d,
  ltag' c = "unsignedlong" -> fst (inline_syntax [c] d) = "unsignedlong".
Proof.
  intros c d Hc. unfold inline_syntax. cbn [fold_left]. unfold syntax_step.
  rewrite Hc. cbn -[find_desc]. unfold render_plain. cbn -[find_desc].
  now destruct (find_desc c "range").
Qed.

Lemma inline_unsignedlong_drops_range_witness :
  fst (inline_syntax [el "unsignedLong" [range_1_10]] "") = "unsignedlong".
Proof. apply inline_unsignedlong_drops_range. reflexivity. Defined.

(** One-sided bounds: on a [string] with only [minLength], the inline
    syntax gives the bare [string] while [extract_type_info] (the dataType
    path) gives [string(min:)]. *)
Theorem string_min_only_disagrees : forall a tx tl sa st stl sk d m,
  lookup "minLength" sa = Some m -> truthy m = true ->
  lookup "maxLength" sa = None ->
  let c := Elem "string" a tx tl [Elem "size" sa st stl sk] in
  fst (inline_syntax [c] d) = "string" /\
  extract_type_info c = "string(" ++ (m ++ ":") ++ ")".
Proof.
  intros a tx tl sa st stl sk d m Hmin Hm Hmax c. subst c. split.
  - cbv -[lookup truthy]. rewrite Hmin, Hmax, Hm. reflexivity.
  - cbv -[lookup truthy]. rewrite Hmin, Hmax, Hm. reflexivity.
Qed.

Lemma string_min_only_disagrees_witness :
  fst (inline_syntax [el "string" [Elem "size" [("minLength", "1")] None None []]] "")
  = "string" /\
  extract_type_info (el "string" [Elem "size" [("minLength", "1")] None None []])
  = "string(1:)".
Proof.
  exact (string_min_only_disagrees [] None None [("minLength", "1")] None None []
           "" "1" eq_refl eq_refl eq_refl).
Defined.

(** One-sided bounds: on an [int] with only [maxInclusive], the inline
    syntax gives [int[:max]] while [extract_type_info] gives [int[max]]. *)
Theorem int_max_only_disagrees : forall a tx tl ra rt rtl rk d h,
  lookup "minInclusive" ra = None ->
  lookup "maxInclusive" ra = Some h -> truthy h = true ->
  let c := Elem "int" a tx tl [Elem "range" ra rt rtl rk] in
  fst (inline_syntax [c] d) = "int[:" ++ h ++ "]" /\
  extract_type_info c = "int[" ++ h ++ "]".
Proof.
  intros a tx tl ra rt rtl rk d h Hmin Hmax Hh c. subst c. split.
  - cbv -[lookup truthy]. rewrite Hmin, Hmax, Hh. reflexivity.
  - cbv -[lookup truthy]. rewrite Hmin, Hmax, Hh. reflexivity.
Qed.

Lemma int_max_only_disagrees_witness :
  fst (inline_syntax [el "int" [Elem "range" [("maxInclusive", "9")] None None []]] "")
  = "int[:9]" /\
  extract_type_info (el "int" [Elem "range" [("maxInclusive", "9")] None None []])
  = "int[9]".
Proof.
  exact (int_max_only_disagrees [] None None [("maxInclusive", "9")] None None []
           "" "9" eq_refl eq_refl eq_refl).
Defined.

(** [process_xml_file]: every entry of the reference table comes from an
    element of the model whose tag contains [reference], with a non-empty
    [name] (the key) and a non-empty [targetParamRef] (the value). *)
Theorem references_from_model : forall model k v,
  In (k, v) (build_references model) ->
  truthy k = true /\ truthy v = true /\
  exists e, In e (iter model) /\ contains "reference" (lower (tag e)) = true /\
            get_d e "name" = k /\ get_d e "targetParamRef" = v.
Proof.
  intros model k v H. unfold build_references in H.
  apply (build_references_ok_aux model (iter model) []) in H;
    [exact H | intros x Hx; exact Hx | intros ? ? []].
Qed.

Lemma references_from_model_witness :
  truthy "Ref" = true /\ truthy "Device.X" = true /\
  exists e, In e (iter (el "model" [Elem "reference" [("name", "Ref");
                                    ("targetParamRef", "Device.X")] None None []]))
            /\ contains "reference" (lower (tag e)) = true /\
            get_d e "name" = "Ref" /\ get_d e "targetParamRef" = "Device.X".
Proof.
  apply (references_from_model
           (el "model" [Elem "reference" [("name", "Ref");
                        ("targetParamRef", "Device.X")] None None []])).
  left. reflexivity.
Defined.

(** [extract_parameter_data] against [main]: the key under which a
    parameter's documentation is looked up, [normalize_path] of its Full
    Path, is the key [main] stores for the row [name] after the object
    row whose path is [parent] without its trailing dots, plus one ['.']. *)
Theorem parameter_key_matches_index : forall parent name,
  normalize_path (full_path_of parent name) =
  normalize_path (rstrip_by is_dot parent ++ "." ++ name).
Proof.
  apply full_path_key.
Qed.

(** [substitute_macros]: the [{{object}}] replacement of a
    [{{reference|...}}] macro never fires, because the lazy pattern ends
    each match at the first [}}]; the macro's text is returned as is. *)
Theorem reference_macro_object_unreplaced : forall s inner rest y pn op,
  find_close s = Some (inner, rest) ->
  strip inner = "reference|" ++ y ->
  macro_replacer pn op inner = y.
Proof.
  intros s inner rest y pn op Hf Hs.
  destruct (find_close_split _ _ _ Hf) as [_ Hi].
  assert (Hy : contains "}}" y = false).
  { apply contains_strip in Hi. rewrite Hs in Hi.
    exact (contains_app_r _ "reference|" y Hi). }
  unfold macro_replacer. rewrite Hs. cbn. rewrite startswith_nil.
  apply replace_aux_absent. exact (contains_infix "{{object" "}}" y Hy).
Qed.

Lemma reference_macro_object_unreplaced_witness :
  macro_replacer "X" "Device.Y." "reference|the {{object" = "the {{object".
Proof.
  apply (reference_macro_object_unreplaced "reference|the {{object}}}} tail"
           "reference|the {{object" "}} tail" "the {{object" "X" "Device.Y.");
    reflexivity.
Defined.

(** [extract_object_data]: without a documentation entry, only a child
    tagged exactly [{urn:broadband-forum-org:cwmp:datamodel-1-14}description]
    is read; an object whose description child has any other tag (an
    unqualified [<description>] included) gets an empty Description. *)
Theorem object_description_namespaced_only : forall o html,
  lookup (normalize_path (get_d o "name")) html = None ->
  forallb (fun c => negb (String.eqb (tag c) dm_description)) (kids o) = true ->
  o_description (extract_object_data o html) = "".
Proof.
  intros o html Hl Hk. unfold extract_object_data. cbn [o_description].
  assert (Hn : lookup (normalize_path (if endswith (get_d o "name") "."
                                       then get_d o "name"
                                       else get_d o "name" ++ ".")) html = None).
  { destruct (endswith (get_d o "name") "."); [exact Hl|].
    now rewrite normalize_path_dot. }
  rewrite Hn, find_none_tag by exact Hk. reflexivity.
Qed.

Lemma object_description_namespaced_only_witness :
  o_description
    (extract_object_data
       (Elem "object" [("name", "Device.X.")] None None
          [Elem "description" [] (Some "The X table.") None []]) []) = "".
Proof. apply object_description_namespaced_only; reflexivity. Defined.

(** [extract_parameter_data]: for a parent [a ++ "."] where [a] is
    non-empty, holds no space and neither starts nor ends with ['.'], and a
    non-empty name that holds no space and neither starts nor ends with
    ['.'], Full Path is the plain concatenation [a ++ "." ++ name]; double
    dots inside [a] are kept. *)
Theorem full_path_plain : forall a name,
  truthy a = true -> truthy name = true ->
  all_chars not_space a = true -> all_chars not_space name = true ->
  lstrip_by is_dot a = a -> rstrip_by is_dot a = a ->
  lstrip_by is_dot name = name -> rstrip_by is_dot name = name ->
  full_path_of (a ++ ".") name = a ++ "." ++ name.
Proof.
  intros a name Ha Hn Sa Sn La Ra Ln Rn. unfold full_path_of.
  rewrite rstrip_snoc, Ra by reflexivity. rewrite replace_space.
  rewrite delete_of_no_space
    by (rewrite all_chars_app, Sa; cbn [append all_chars]; rewrite Sn; reflexivity).
  unfold strip_by. rewrite lstrip_app, La.
  replace (String.eqb a "") with false
    by (unfold truthy in Ha; now destruct (String.eqb a "")).
  assert (Hr : rstrip_by is_dot (a ++ "." ++ name) = a ++ "." ++ name).
  { rewrite rstrip_app. cbn [append rstrip_by]. rewrite Rn.
    replace (String.eqb name "") with false
      by (unfold truthy in Hn; now destruct (String.eqb name "")).
    reflexivity. }
  now rewrite !Hr.
Qed.

Lemma full_path_plain_witness :
  full_path_of "Device..IP." "Enable" = "Device..IP.Enable".
Proof. apply (full_path_plain "Device..IP" "Enable"); reflexivity. Defined.

(** [main] then [extract_parameter_data]: for every documentation table,
    the description that [main]'s index holds under the key of a row
    [name] after an object row of path [parent] (the parent without its
    trailing dots, one ['.'], the name, normalized) is the Description of
    the parameter [name] of that parent; no template, reference or syntax
    replaces it. *)
Theorem documentation_round_trip :
  forall rows fuel p parent refs tmpls root r d,
  lookup (normalize_path (rstrip_by is_dot parent ++ "." ++ get_d p "name"))
    (html_descriptions rows) = Some d ->
  extract_parameter_data fuel p parent refs tmpls (html_descriptions rows) root
    = Some r ->
  p_description r = d.
Proof.
  intros rows fuel p parent refs tmpls root r d Hl Hr.
  assert (Hd : truthy d = true).
  { apply lookup_in in Hl. unfold html_descriptions in Hl.
    apply (html_index_ok rows ([], "")) in Hl; [exact (proj2 Hl)|].
    intros ? ? []. }
  pose proof (ParamFacts.final_keeps _ _ _ _ _ _ _ _ FDescription Hr) as Hf.
  cbn [getf] in Hf. rewrite ParamFacts.base_description in Hf.
  unfold html_or_xml_description in Hf.
  rewrite full_path_key, Hl in Hf. now apply Hf.
Qed.

Lemma documentation_round_trip_witness :
  exists r,
  extract_parameter_data 1 (Elem "parameter" [("name", "Enable")] None None [])
    "Device.X." [] []
    (html_descriptions
       [{| h_classes := ["object"]; h_ncells := 2; h_name := "Device.X";
           h_description := "The X table." |};
        {| h_classes := ["parameter"]; h_ncells := 2; h_name := "Enable";
           h_description := "Old text." |};
        {| h_classes := ["parameter"]; h_ncells := 2; h_name := "Enable";
           h_description := "Enables X." |}]) test_root = Some r /\
  p_description r = "Enables X.".
Proof.
  destruct (extract_parameter_data 1 (Elem "parameter" [("name", "Enable")] None None [])
    "Device.X." [] []
    (html_descriptions
       [{| h_classes := ["object"]; h_ncells := 2; h_name := "Device.X";
           h_description := "The X table." |};
        {| h_classes := ["parameter"]; h_ncells := 2; h_name := "Enable";
           h_description := "Old text." |};
        {| h_classes := ["parameter"]; h_ncells := 2; h_name := "Enable";
           h_description := "Enables X." |}]) test_root) as [r|] eqn:E;
    [|vm_compute in E; discriminate].
  exists r. split; [reflexivity|].
  apply (documentation_round_trip
    [{| h_classes := ["object"]; h_ncells := 2; h_name := "Device.X";
        h_description := "The X table." |};
     {| h_classes := ["parameter"]; h_ncells := 2; h_name := "Enable";
        h_description := "Old text." |};
     {| h_classes := ["parameter"]; h_ncells := 2; h_name := "Enable";
        h_description := "Enables X." |}]
    1 (Elem "parameter" [("name", "Enable")] None None []) "Device.X." [] []
    test_root r "Enables X."); [vm_compute; reflexivity | exact E].
Defined.
